(** * WhatsApp expense tracker: the parser and the summary of [app.py]

    A shallow embedding of [parse_expense], [categorize_expense],
    [get_or_create_sheet], [save_expense], [get_summary] and [webhook],
    together with the Python built-ins they are made of: [str.strip],
    [str.lower], [re.search], [float], [datetime.strptime], the
    subtraction of dates and the insertion-ordered [dict].

    Conventions.
    - A Python [str] is a [list ascii]; a character is a code point in
      U+0000..U+00FF (Latin-1).  Within that range the whitespace of
      [str.strip] and of the regex class [\s] is 9-13, 28-31, 32, 0x85
      and 0xA0, and the regex class [\d] is 0-9.
    - A Python [float] is an IEEE-754 binary64 value: a [spec_float]
      with precision 53 and maximal exponent 1024, and the operations of
      [SpecFloat], which round to nearest, ties to even.
    - A Python exception is a constructor of [exn], which stands for the
      subclasses of [Exception]; code that may raise lives in the
      [result] monad, and [try]/[except] is a [match].
    - The collaborators (the classifier, the Sheets client, the clock)
      are arguments: what they return or raise is given, not computed.
      [print] and the wording of the replies are not modelled. *)

From Stdlib Require Import ZArith QArith List Ascii String Bool Lia.
From Stdlib Require Import Floats.SpecFloat.
From stdpp Require Import base gmap strings.

Import ListNotations.
Local Open Scope Z_scope.

(** ** Python values: strings, exceptions, floats *)

Definition str := list ascii.

Coercion list_ascii_of_string : string >-> list.

Definition code (c : ascii) : Z := Z.of_nat (nat_of_ascii c).

Inductive exn := ValueError | KeyError | TypeError | OtherError.

Inductive result (A : Type) :=
| Returned (a : A)
| Raised (e : exn).
Arguments Returned {A} a.
Arguments Raised {A} e.

Global Instance result_ret : MRet result := fun A a => Returned a.

Global Instance result_bind : MBind result := fun A B f m =>
  match m with
  | Returned a => f a
  | Raised e => Raised e
  end.

(** ** [str.isspace], [str.strip] *)

Definition is_space (c : ascii) : bool :=
  let n := code c in
  ((9 <=? n) && (n <=? 13)) || ((28 <=? n) && (n <=? 32))
  || (n =? 133) || (n =? 160).

Definition is_digit (c : ascii) : bool :=
  let n := code c in (48 <=? n) && (n <=? 57).

Fixpoint lstrip_with (p : ascii -> bool) (s : str) : str :=
  match s with
  | c :: s' => if p c then lstrip_with p s' else s
  | [] => []
  end.

Definition rstrip_with (p : ascii -> bool) (s : str) : str :=
  rev (lstrip_with p (rev s)).

Definition strip_with (p : ascii -> bool) (s : str) : str :=
  rstrip_with p (lstrip_with p s).

(** [s.strip()] *)
Definition strip (s : str) : str := strip_with is_space s.

(** ** The backtracking matcher behind [re.search] and [re.match]

    Only the constructs that occur in the program's patterns and in the
    pattern [_strptime] builds for ['%Y-%m-%d']: character classes,
    concatenation, ordered alternation, greedy and lazy repetition of a
    character class, capture groups and the anchors [^] and [$] (without
    MULTILINE).  The matcher is the usual one in continuation-passing
    style: the first success in backtracking order is the match. *)

Inductive greed := Greedy | Lazy.

Inductive regex :=
| REps
| RChr (p : ascii -> bool)
| RSeq (r1 r2 : regex)
| RAlt (r1 r2 : regex)
| RRep (g : greed) (min : nat) (p : ascii -> bool)
| RGrp (n : nat) (r : regex)
| RBol
| REol.

(** Captured groups, most recent first. *)
Definition caps := list (nat * str).

(** A match: the end position and the groups. *)
Definition found := (nat * caps)%type.

Definition cont := nat -> str -> caps -> option found.

Fixpoint rep_greedy (p : ascii -> bool) (min : nat) (i : nat) (s : str)
    (c : caps) (k : cont) : option found :=
  let stop := match min with O => k i s c | S _ => None end in
  match s with
  | a :: s' =>
      if p a then
        match rep_greedy p (pred min) (S i) s' c k with
        | Some r => Some r
        | None => stop
        end
      else stop
  | [] => stop
  end.

Fixpoint rep_lazy (p : ascii -> bool) (min : nat) (i : nat) (s : str)
    (c : caps) (k : cont) : option found :=
  let more :=
    match s with
    | a :: s' => if p a then rep_lazy p (pred min) (S i) s' c k else None
    | [] => None
    end in
  match min with
  | O => match k i s c with Some r => Some r | None => more end
  | S _ => more
  end.

Definition newline : ascii := ascii_of_nat 10.

Fixpoint rmatch (r : regex) (i : nat) (s : str) (c : caps) (k : cont)
    : option found :=
  match r with
  | REps => k i s c
  | RChr p =>
      match s with
      | a :: s' => if p a then k (S i) s' c else None
      | [] => None
      end
  | RSeq r1 r2 => rmatch r1 i s c (fun i' s' c' => rmatch r2 i' s' c' k)
  | RAlt r1 r2 =>
      match rmatch r1 i s c k with
      | Some x => Some x
      | None => rmatch r2 i s c k
      end
  | RRep Greedy min p => rep_greedy p min i s c k
  | RRep Lazy min p => rep_lazy p min i s c k
  | RGrp n r =>
      rmatch r i s c (fun i' s' c' => k i' s' ((n, firstn (i' - i) s) :: c'))
  | RBol => match i with O => k i s c | S _ => None end
  | REol =>
      match s with
      | [] => k i s c
      | [a] => if ascii_dec a newline then k i s c else None
      | _ => None
      end
  end.

Definition accept : cont := fun i _ c => Some (i, c).

(** [re.match]: the pattern at position 0. *)
Definition re_match (r : regex) (s : str) : option found :=
  rmatch r 0 s [] accept.

(** [re.search]: the leftmost position at which the pattern matches. *)
Fixpoint search_from (r : regex) (i : nat) (s : str) : option found :=
  match rmatch r i s [] accept with
  | Some m => Some m
  | None =>
      match s with
      | [] => None
      | _ :: s' => search_from r (S i) s'
      end
  end.

Definition re_search (r : regex) (s : str) : option found :=
  search_from r 0 s.

(** [match.group(n)] for a group that took part in the match. *)
Fixpoint group (n : nat) (c : caps) : str :=
  match c with
  | [] => []
  | (m, t) :: c' => if Nat.eqb m n then t else group n c'
  end.

(** Character classes of the patterns. *)
Definition cls_dot (c : ascii) : bool :=
  if ascii_dec c newline then false else true.
Definition cls_space : ascii -> bool := is_space.
Definition cls_digit : ascii -> bool := is_digit.
Definition cls_digit_or_dot (c : ascii) : bool :=
  is_digit c || (code c =? 46).
Definition cls_range (lo hi : Z) (c : ascii) : bool :=
  (lo <=? code c) && (code c <=? hi).
Definition cls_lit (n : Z) (c : ascii) : bool := code c =? n.

Fixpoint seq_of (rs : list regex) : regex :=
  match rs with
  | [] => REps
  | [r] => r
  | r :: rs' => RSeq r (seq_of rs')
  end.

(** [r'(.+?)\s+([\d.]+)\s*$'] *)
Definition pat_trailing : regex :=
  seq_of [ RGrp 1 (RRep Lazy 1 cls_dot);
           RRep Greedy 1 cls_space;
           RGrp 2 (RRep Greedy 1 cls_digit_or_dot);
           RRep Greedy 0 cls_space;
           REol ].

(** [r'^([\d.]+)\s+(.+)'] *)
Definition pat_leading : regex :=
  seq_of [ RBol;
           RGrp 1 (RRep Greedy 1 cls_digit_or_dot);
           RRep Greedy 1 cls_space;
           RGrp 2 (RRep Greedy 1 cls_dot) ].

(** ** [float]

    [float(s)] on a string: surrounding whitespace is dropped,
    underscores are allowed between digits only, then comes an optional
    sign and either a decimal number (digits with an optional point and
    an optional exponent, at least one digit) or [inf], [infinity] or
    [nan] in any letter case.  The decimal value is rounded to the
    nearest binary64, ties to even; values beyond the range become an
    infinity.  (CPython also refuses numbers of more than 10^9 digits;
    such strings are outside this model.) *)

Definition float := spec_float.

Definition fadd : float -> float -> float := SFadd 53 1024.

Definition float_of_Z (z : Z) : float := binary_normalize 53 1024 z 0 false.

(** The float nearest to [D * 10^E], for a natural number [D]. *)
Definition decimal_to_float (neg : bool) (D E : Z) : float :=
  match D with
  | Zpos m =>
      if 0 <=? E then
        binary_round 53 1024 neg (m * Z.to_pos (10 ^ E)) 0
      else
        let '(q, e, l) :=
          SFdiv_core_binary 53 1024 (Zpos m) 0 (10 ^ (- E)) 0 in
        binary_round_aux 53 1024 neg q e l
  | _ => S754_zero neg
  end.

(** The whitespace [float] drops: 9-13 and 32, and 0x85 and 0xA0, which
    it first turns into a space. *)
Definition float_space (c : ascii) : bool :=
  let n := code c in
  ((9 <=? n) && (n <=? 13)) || (n =? 32) || (n =? 133) || (n =? 160).

Definition is_underscore (c : ascii) : bool := code c =? 95.

Fixpoint drop_underscores (prev : ascii) (s : str) : option str :=
  match s with
  | [] => if is_underscore prev then None else Some []
  | c :: s' =>
      if is_underscore c then
        if is_digit prev then drop_underscores c s' else None
      else if is_underscore prev && negb (is_digit c) then None
      else option_map (cons c) (drop_underscores c s')
  end.

Fixpoint span (p : ascii -> bool) (s : str) : str * str :=
  match s with
  | c :: s' =>
      if p c then let '(u, v) := span p s' in (c :: u, v) else ([], s)
  | [] => ([], [])
  end.

Definition digits_value (ds : str) : Z :=
  fold_left (fun acc c => 10 * acc + (code c - 48)) ds 0.

Definition take_sign (s : str) : bool * str :=
  match s with
  | c :: s' =>
      if code c =? 45 then (true, s')
      else if code c =? 43 then (false, s')
      else (false, s)
  | [] => (false, [])
  end.

(** An exponent without a digit is not consumed. *)
Definition take_exponent (s : str) : Z * str :=
  match s with
  | c :: s1 =>
      if (code c =? 101) || (code c =? 69) then
        let '(neg, s2) := take_sign s1 in
        let '(ds, s3) := span is_digit s2 in
        match ds with
        | [] => (0, s)
        | _ => ((if neg then - digits_value ds else digits_value ds), s3)
        end
      else (0, s)
  | [] => (0, [])
  end.

(** The decimal number at the head of [s] and what follows it. *)
Definition parse_decimal (s : str) : option (float * str) :=
  let '(neg, s1) := take_sign s in
  let '(ip, s2) := span is_digit s1 in
  let '(fp, s3) :=
    match s2 with
    | c :: r => if code c =? 46 then span is_digit r else ([], s2)
    | [] => ([], s2)
    end in
  match ip ++ fp with
  | [] => None
  | ds =>
      let '(E, s4) := take_exponent s3 in
      Some (decimal_to_float neg (digits_value ds) (E - Z.of_nat (length fp)), s4)
  end.

Definition lower (c : ascii) : ascii :=
  if (65 <=? code c) && (code c <=? 90)
  then ascii_of_nat (nat_of_ascii c + 32) else c.

Definition parse_inf_or_nan (s : str) : option float :=
  let '(neg, s1) := take_sign s in
  let w := map lower s1 in
  if decide (w = "inf" \/ w = "infinity") then Some (S754_infinity neg)
  else if decide (w = "nan") then Some S754_nan
  else None.

Definition py_float (s : str) : result float :=
  match drop_underscores zero (strip_with float_space s) with
  | None => Raised ValueError
  | Some u =>
      match parse_decimal u with
      | Some (v, []) => Returned v
      | Some (_, _ :: _) => Raised ValueError
      | None =>
          match parse_inf_or_nan u with
          | Some v => Returned v
          | None => Raised ValueError
          end
      end
  end.

(** ** [parse_expense] *)

Definition parse_expense (text : str) : result (option str * option float) :=
  match re_search pat_trailing (strip text) with
  | Some m =>
      let description := strip (group 1 m.2) in
      amount ← py_float (group 2 m.2);
      mret (Some description, Some amount)
  | None =>
      match re_search pat_leading (strip text) with
      | Some m =>
          amount ← py_float (group 1 m.2);
          let description := strip (group 2 m.2) in
          mret (Some description, Some amount)
      | None => mret (None, None)
      end
  end.


(** ** [categorize_expense]

    The classifier is a collaborator: [generate_content] may raise, and
    reading [response.text] may raise too (the client raises when the
    response holds no text).  [exn] stands for the subclasses of
    [Exception], which is what [except Exception] catches; [print] is not
    modelled. *)

Inductive response := Response (text : result str).

Definition response_text (r : response) : result str :=
  match r with Response t => t end.

Definition quote : ascii := ascii_of_nat 34.

Definition prompt (description : str) : str :=
  "Categorize this expense into ONE word category: " ++ [quote]
  ++ description ++ [quote] ++ [newline; newline]
  ++ "Common categories: Food, Transport, Shopping, Entertainment, Bills, Health, Education, Groceries, Other"
  ++ [newline; newline]
  ++ "Respond with ONLY the category name, nothing else.".

Definition categorize_expense (generate_content : str -> result response)
    (description : str) : result str :=
  match
    response ← generate_content (prompt description);
    text ← response_text response;
    let category := strip text in
    mret category
  with
  | Returned category => Returned category
  | Raised _ => Returned (list_ascii_of_string "Other")
  end.

(** ** Calendar dates: [datetime.date], [datetime.strptime] *)

Record date := Date { year : Z; month : Z; day : Z }.

Definition is_leap (y : Z) : bool :=
  (y mod 4 =? 0) && (negb (y mod 100 =? 0) || (y mod 400 =? 0)).

Definition days_in_month (y m : Z) : Z :=
  if m =? 2 then (if is_leap y then 29 else 28)
  else if (m =? 4) || (m =? 6) || (m =? 9) || (m =? 11) then 30
  else 31.

Definition days_before_year (y : Z) : Z :=
  let y1 := y - 1 in y1 * 365 + y1 / 4 - y1 / 100 + y1 / 400.

Fixpoint days_before_month_aux (y : Z) (n : nat) : Z :=
  match n with
  | O => 0
  | S n' => days_before_month_aux y n' + days_in_month y (Z.of_nat n)
  end.

(** The days of the year [y] that precede the first day of month [m]. *)
Definition days_before_month (y m : Z) : Z :=
  days_before_month_aux y (Z.to_nat (m - 1)).

Definition toordinal (d : date) : Z :=
  days_before_year (year d) + days_before_month (year d) (month d) + day d.

(** [date(y, m, d)] *)
Definition make_date (y m d : Z) : result date :=
  if (1 <=? y) && (y <=? 9999) && (1 <=? m) && (m <=? 12)
     && (1 <=? d) && (d <=? days_in_month y m)
  then Returned (Date y m d) else Raised ValueError.

(** [(a - b).days] *)
Definition days_between (a b : date) : Z := toordinal a - toordinal b.

Definition date_eqb (a b : date) : bool :=
  (year a =? year b) && (month a =? month b) && (day a =? day b).

Definition digit : regex := RChr cls_digit.
Definition lit (n : Z) : regex := RChr (cls_lit n).
Definition range (lo hi : Z) : regex := RChr (cls_range lo hi).

Fixpoint alt_of (rs : list regex) : regex :=
  match rs with
  | [] => REps
  | [r] => r
  | r :: rs' => RAlt r (alt_of rs')
  end.

(** The pattern [_strptime] compiles ['%Y-%m-%d'] to:
    [(?P<Y>\d\d\d\d)-(?P<m>1[0-2]|0[1-9]|[1-9])-(?P<d>3[0-1]|[1-2]\d|0[1-9]|[1-9]| [1-9])];
    the groups Y, m and d are numbered 1, 2 and 3. *)
Definition pat_date : regex :=
  seq_of [ RGrp 1 (seq_of [digit; digit; digit; digit]);
           lit 45;
           RGrp 2 (alt_of [ RSeq (lit 49) (range 48 50);
                            RSeq (lit 48) (range 49 57);
                            range 49 57 ]);
           lit 45;
           RGrp 3 (alt_of [ RSeq (lit 51) (range 48 49);
                            RSeq (range 49 50) digit;
                            RSeq (lit 48) (range 49 57);
                            range 49 57;
                            RSeq (lit 32) (range 49 57) ]) ].

(** [int] on a captured group: digits, possibly after a space. *)
Definition int_of_group (g : str) : Z := digits_value (strip g).

(** [datetime.strptime(data_string, '%Y-%m-%d').date()] *)
Definition strptime (data_string : str) : result date :=
  match re_match pat_date data_string with
  | None => Raised ValueError
  | Some (e, c) =>
      if negb (Nat.eqb (length data_string) e) then Raised ValueError
      else make_date (int_of_group (group 1 c)) (int_of_group (group 2 c))
                     (int_of_group (group 3 c))
  end.

(** ** The ledger: rows, worksheets, the Sheets client

    A row is what [get_all_records] yields: a [dict] from the column
    headers to the cells; cells are text, as the ledger's contract has
    them.  [r[k]] raises [KeyError] when the column is missing. *)

Definition getitem (r : gmap string str) (k : string) : result str :=
  match r !! k with
  | Some v => Returned v
  | None => Raised KeyError
  end.

Record worksheet := Worksheet {
  get_all_records : result (list (gmap string str));
  append_row : str -> float -> str -> result unit
}.

(** [client.open] finds the spreadsheet, raises [SpreadsheetNotFound],
    or raises something else; [create_sheet] stands for creating the
    spreadsheet, taking its first sheet and writing the headers. *)
Inductive open_outcome :=
| Opened (w : worksheet)
| SpreadsheetNotFound
| OpenRaised (e : exn).

Record client := Client {
  open_sheet : open_outcome;
  create_sheet : result worksheet
}.

(** [get_sheets_client()] returns the client, or [None] when building it
    raised. *)
Definition get_or_create_sheet (get_sheets_client : option client)
    : result (option worksheet) :=
  match get_sheets_client with
  | None => mret None
  | Some client =>
      match open_sheet client with
      | Opened worksheet => mret (Some worksheet)
      | SpreadsheetNotFound =>
          worksheet ← create_sheet client; mret (Some worksheet)
      | OpenRaised e => Raised e
      end
  end.

(** ** [get_summary] *)

(** An insertion-ordered [dict] from category to amount. *)
Definition dict := list (str * float).

Fixpoint dict_get (d : dict) (k : str) : option float :=
  match d with
  | [] => None
  | (k', v) :: d' => if decide (k' = k) then Some v else dict_get d' k
  end.

Fixpoint dict_set (d : dict) (k : str) (v : float) : dict :=
  match d with
  | [] => [(k, v)]
  | (k', v') :: d' =>
      if decide (k' = k) then (k', v) :: d' else (k', v') :: dict_set d' k v
  end.

(** A Python number: [total] starts as the [int] 0 and becomes a
    [float] with the first amount added. *)
Inductive number :=
| Int (z : Z)
| Float (f : float).

Definition to_float (n : number) : float :=
  match n with
  | Int z => float_of_Z z
  | Float f => f
  end.

(** [n + a] for a float [a]. *)
Definition add_float (n : number) (a : float) : number :=
  Float (fadd (to_float n) a).

(** The condition under which the first loop appends a record. *)
Definition in_period (period : str) (today record_date : date) : bool :=
  if bool_decide (period = "today") && date_eqb record_date today then true
  else if bool_decide (period = "week") && (days_between today record_date <=? 7) then true
  else if bool_decide (period = "month") && (days_between today record_date <=? 30) then true
  else false.

(** The first loop: [filtered] grows by the records of the period; a
    record whose date raises is passed over. *)
Fixpoint filter_loop (period : str) (today : date)
    (records : list (gmap string str)) (filtered : list (gmap string str))
    : list (gmap string str) :=
  match records with
  | [] => filtered
  | record :: records' =>
      let filtered' :=
        match
          data_string ← getitem record "Date";
          record_date ← strptime data_string;
          mret (if in_period period today record_date
                then filtered ++ [record] else filtered)
        with
        | Returned f => f
        | Raised _ => filtered
        end in
      filter_loop period today records' filtered'
  end.

(** The second loop: the totals by category and the grand total; a
    record whose amount or category raises is passed over. *)
Fixpoint totals_loop (filtered : list (gmap string str))
    (category_totals : dict) (total : number) : dict * number :=
  match filtered with
  | [] => (category_totals, total)
  | record :: filtered' =>
      let '(category_totals', total') :=
        match
          cell ← getitem record "Amount";
          amount ← py_float cell;
          category ← getitem record "Category";
          let category_totals' :=
            match dict_get category_totals category with
            | Some v => dict_set category_totals category (fadd v amount)
            | None => dict_set category_totals category amount
            end in
          mret (category_totals', add_float total amount)
        with
        | Returned st => st
        | Raised _ => (category_totals, total)
        end in
      totals_loop filtered' category_totals' total'
  end.

(** [summarize]: the two loops on the records read. *)
Definition summarize (records : list (gmap string str)) (period : str)
    (today : date) : dict * number :=
  let filtered := filter_loop period today records [] in
  totals_loop filtered [] (Int 0).

(** [get_summary(period)], given the outcome of [get_sheets_client()]
    and the date [datetime.now().date()]. *)
Definition get_summary (get_sheets_client : option client) (now : date)
    (period : str) : result (dict * number) :=
  match
    worksheet ← get_or_create_sheet get_sheets_client;
    match worksheet with
    | None => mret ([], Int 0)
    | Some worksheet =>
        records ← get_all_records worksheet;
        let today := now in
        mret (summarize records period today)
    end
  with
  | Returned r => Returned r
  | Raised _ => Returned ([], Int 0)
  end.

(** ** [save_expense] and [webhook] *)

Definition save_expense (get_sheets_client : option client)
    (description : str) (amount : float) (category : str) : bool :=
  match
    worksheet ← get_or_create_sheet get_sheets_client;
    match worksheet with
    | None => mret false
    | Some worksheet =>
        _ ← append_row worksheet description amount category;
        mret true
    end
  with
  | Returned b => b
  | Raised _ => false
  end.

(** Truth values of [description] and [amount] in [if description and
    amount]: [None], the empty string and a zero are false. *)
Definition truthy_str (s : option str) : bool :=
  match s with
  | Some (_ :: _) => true
  | _ => false
  end.

Definition truthy_float (a : option float) : bool :=
  match a with
  | Some (S754_zero _) => false
  | Some _ => true
  | None => false
  end.

(** [str.lower] on Latin-1: A-Z and the capital letters 0xC0-0xDE,
    0xD7 excepted. *)
Definition lower_char (c : ascii) : ascii :=
  let n := code c in
  if ((65 <=? n) && (n <=? 90))
     || ((192 <=? n) && (n <=? 222) && negb (n =? 215))
  then ascii_of_nat (nat_of_ascii c + 32) else c.

Definition str_lower (s : str) : str := map lower_char s.

(** [s in [a, b, ...]] *)
Definition str_in (s : str) (l : list str) : bool :=
  existsb (fun x => bool_decide (s = x)) l.

(** What a reply is made of; the wording of the message is not
    modelled. *)
Inductive reply :=
| Summary (period : str) (results : dict) (total : number)
| Help
| Saved (description : str) (amount : float) (category : str)
| SaveFailed
| ErrorReply (e : exn)
| NotUnderstood.

(** [webhook], given the message body [request.values.get('Body', '')].
    [parse_expense] runs outside the [try]. *)
Definition webhook (generate_content : str -> result response)
    (get_sheets_client : option client) (now : date) (body : str)
    : result reply :=
  let incoming_msg := str_lower (strip body) in
  if str_in incoming_msg [list_ascii_of_string "summary";
                          list_ascii_of_string "today"] then
    '(results, total) ← get_summary get_sheets_client now "today";
    mret (Summary "today" results total)
  else if bool_decide (incoming_msg = "week") then
    '(results, total) ← get_summary get_sheets_client now "week";
    mret (Summary "week" results total)
  else if bool_decide (incoming_msg = "month") then
    '(results, total) ← get_summary get_sheets_client now "month";
    mret (Summary "month" results total)
  else if bool_decide (incoming_msg = "help") then
    mret Help
  else
    let original_msg := strip body in
    '(description, amount) ← parse_expense original_msg;
    if truthy_str description && truthy_float amount then
      match description, amount with
      | Some description, Some amount =>
          match
            category ← categorize_expense generate_content description;
            let success :=
              save_expense get_sheets_client description amount category in
            mret (if success then Saved description amount category
                  else SaveFailed)
          with
          | Returned r => mret r
          | Raised e => mret (ErrorReply e)
          end
      | _, _ => mret NotUnderstood
      end
    else mret NotUnderstood.
(** * Vocabulary of the statements *)

Definition all (p : ascii -> bool) (u : str) : Prop :=
  Forall (fun c => p c = true) u.

(** [v] does not begin with a character of class [p]. *)
Definition stops (p : ascii -> bool) (v : str) : Prop :=
  match v with
  | [] => True
  | a :: _ => p a = false
  end.

(** [v] does not end with a character of class [p]. *)
Definition ends (p : ascii -> bool) (v : str) : Prop := stops p (rev v).

(** What a pattern can match: [matches r i u s] says that [r], at
    position [i], can match the characters [u] when [s] follows them. *)
Inductive matches : regex -> nat -> str -> str -> Prop :=
| M_eps i s : matches REps i [] s
| M_chr p i a s : p a = true -> matches (RChr p) i [a] s
| M_seq r1 r2 i u1 u2 s :
    matches r1 i u1 (u2 ++ s) -> matches r2 (i + length u1) u2 s ->
    matches (RSeq r1 r2) i (u1 ++ u2) s
| M_alt_l r1 r2 i u s : matches r1 i u s -> matches (RAlt r1 r2) i u s
| M_alt_r r1 r2 i u s : matches r2 i u s -> matches (RAlt r1 r2) i u s
| M_rep g min p i u s :
    all p u -> (min <= length u)%nat -> matches (RRep g min p) i u s
| M_grp n r i u s : matches r i u s -> matches (RGrp n r) i u s
| M_bol s : matches RBol 0 [] s
| M_eol i s : s = [] \/ s = [newline] -> matches REol i [] s.

(** The part of [pat_trailing] after its first group: [\s+([\d.]+)\s*$]. *)
Definition pat_tail : regex :=
  seq_of [ RRep Greedy 1 cls_space;
           RGrp 2 (RRep Greedy 1 cls_digit_or_dot);
           RRep Greedy 0 cls_space;
           REol ].

(** The characters after the last line feed of [d] (all of [d] when it
    has none). *)
Definition last_line (d : str) : str := rev (fst (span cls_dot (rev d))).

(** [decimal_token tok D E]: [tok] is a run of digits with an optional
    single decimal point and at least one digit, and denotes the number
    [D * 10^E]. *)
Inductive decimal_token : str -> Z -> Z -> Prop :=
| dt_int ip :
    ip <> [] -> all is_digit ip ->
    decimal_token ip (digits_value ip) 0
| dt_frac ip fp :
    ip ++ fp <> [] -> all is_digit ip -> all is_digit fp ->
    decimal_token (ip ++ "." ++ fp) (digits_value (ip ++ fp))
                  (- Z.of_nat (length fp)).

Definition cls_nonspace (c : ascii) : bool := negb (is_space c).

(** A numeric token in the sense of the patterns: a non-empty run of
    digits and points. *)
Definition numeric_token (t : str) : Prop :=
  t <> [] /\ all cls_digit_or_dot t.

(** [s] has a numeric token as one of its words: between whitespace or
    the ends of [s]. *)
Definition has_numeric_token (s : str) : Prop :=
  exists l t r, s = l ++ t ++ r /\ numeric_token t /\
                ends cls_nonspace l /\ stops cls_nonspace r.

(** The date and the amount of a record, as the two loops read them. *)
Definition row_date (record : gmap string str) : result date :=
  data_string ← getitem record "Date"; strptime data_string.

Definition row_amount (record : gmap string str) : result float :=
  cell ← getitem record "Amount"; py_float cell.

(** Whether the first loop appends the record. *)
Definition retained (period : str) (today : date) (record : gmap string str)
    : bool :=
  match row_date record with
  | Returned d => in_period period today d
  | Raised _ => false
  end.

Definition raises {A} (m : result A) : Prop := exists e, m = Raised e.

(** The category and the amount a record contributes in the second
    loop, if it contributes at all. *)
Definition entry (record : gmap string str) : option (str * float) :=
  match
    amount ← row_amount record;
    category ← getitem record "Category";
    mret (category, amount)
  with
  | Returned e => Some e
  | Raised _ => None
  end.

Definition entries (filtered : list (gmap string str)) : list (str * float) :=
  omap entry filtered.

Definition amounts_of (category : str) (es : list (str * float)) : list float :=
  map snd (List.filter (fun e => bool_decide (e.1 = category)) es).

(** The sum of a non-empty list of floats, added from left to right. *)
Definition sum_left (l : list float) : option float :=
  match l with
  | [] => None
  | a :: l' => Some (fold_left fadd l' a)
  end.

(** [sum(amt for _, amt in results)]: from the [int] 0, left to right. *)
Definition sum_amounts (results : dict) : number :=
  fold_left add_float (map snd results) (Int 0).

(** The ways in which reading the ledger fails. *)
Inductive read_failure : option client -> Prop :=
| rf_no_client : read_failure None
| rf_open_raised c e : open_sheet c = OpenRaised e -> read_failure (Some c)
| rf_create_raised c e :
    open_sheet c = SpreadsheetNotFound -> create_sheet c = Raised e ->
    read_failure (Some c)
| rf_read_opened c w e :
    open_sheet c = Opened w -> get_all_records w = Raised e ->
    read_failure (Some c)
| rf_read_created c w e :
    open_sheet c = SpreadsheetNotFound -> create_sheet c = Returned w ->
    get_all_records w = Raised e -> read_failure (Some c).

(** A client whose ledger is read without failure and holds [records]. *)
Definition ledger_of (records : list (gmap string str)) : option client :=
  Some (Client (Opened (Worksheet (Returned records)
                                  (fun _ _ _ => Returned tt)))
               (Raised OtherError)).

(** A row with the three columns the summary reads. *)
Definition row (d a c : string) : gmap string str :=
  {[ "Date" := list_ascii_of_string d;
     "Amount" := list_ascii_of_string a;
     "Category" := list_ascii_of_string c ]}.

(** The second loop on the contributions themselves. *)
Fixpoint totals_entries (es : list (str * float)) (category_totals : dict)
    (total : number) : dict * number :=
  match es with
  | [] => (category_totals, total)
  | (category, amount) :: es' =>
      totals_entries es'
        (match dict_get category_totals category with
         | Some v => dict_set category_totals category (fadd v amount)
         | None => dict_set category_totals category amount
         end)
        (add_float total amount)
  end.

(** The rational number a finite float stands for (0 for the others). *)
Definition float_value (x : float) : Q :=
  match x with
  | S754_finite s m e =>
      ((if s then -1 else 1) * inject_Z (Zpos m) * 2 ^ e)%Q
  | _ => 0%Q
  end.

Definition is_finite (x : float) : bool :=
  match x with
  | S754_zero _ | S754_finite _ _ _ => true
  | _ => false
  end.

(** [x + y] is finite and does not round. *)
Definition exact_add (x y : float) : bool :=
  is_finite x && is_finite y && is_finite (fadd x y)
  && Qeq_bool (float_value (fadd x y)) (float_value x + float_value y).

(** None of the additions of a left-to-right sum rounds. *)
Fixpoint exact_fold (l : list float) (acc : float) : bool :=
  match l with
  | [] => true
  | a :: l' => exact_add acc a && exact_fold l' (fadd acc a)
  end.

(** None of the additions of the second loop rounds. *)
Fixpoint exact_totals (es : list (str * float)) (category_totals : dict)
    (total : number) : bool :=
  match es with
  | [] => true
  | (category, amount) :: es' =>
      exact_add (to_float total) amount
      && match dict_get category_totals category with
         | Some v =>
             exact_add v amount
             && exact_totals es'
                  (dict_set category_totals category (fadd v amount))
                  (add_float total amount)
         | None =>
             exact_totals es' (dict_set category_totals category amount)
               (add_float total amount)
         end
  end.

(** The exact sum of the values of a dictionary. *)
Definition dict_sum (d : dict) : Q :=
  fold_right (fun kv acc => (float_value kv.2 + acc)%Q) 0%Q d.

(** * Further vocabulary *)

(** The elements of [l] in the order in which they first occur. *)
Fixpoint first_occurrences (l : list str) : list str :=
  match l with
  | [] => []
  | x :: l' =>
      x :: List.filter (fun y => negb (bool_decide (y = x)))
                       (first_occurrences l')
  end.

Definition mem (x : str) (l : list str) : bool :=
  existsb (fun y => bool_decide (y = x)) l.

(** Two floats that are the same, up to the sign of a zero. *)
Definition same_number (x y : float) : Prop :=
  x = y \/ exists s s', x = S754_zero s /\ y = S754_zero s'.

(** [d.strftime('%Y-%m-%d')] for a year of four digits, which is what
    [save_expense] writes in the first column. *)
Definition digit_char (k : Z) : ascii := ascii_of_nat (Z.to_nat (48 + k)).

Definition pad2 (n : Z) : str := [digit_char (n / 10); digit_char (n mod 10)].

Definition pad4 (n : Z) : str :=
  [digit_char (n / 1000); digit_char (n / 100 mod 10);
   digit_char (n / 10 mod 10); digit_char (n mod 10)].

Definition strftime (d : date) : str :=
  pad4 (year d) ++ "-" ++ pad2 (month d) ++ "-" ++ pad2 (day d).

(** The part of [pat_date] after the year. *)
Definition pat_date_rest : regex :=
  seq_of [ lit 45;
           RGrp 2 (alt_of [ RSeq (lit 49) (range 48 50);
                            RSeq (lit 48) (range 49 57);
                            range 49 57 ]);
           lit 45;
           RGrp 3 (alt_of [ RSeq (lit 51) (range 48 49);
                            RSeq (range 49 50) digit;
                            RSeq (lit 48) (range 49 57);
                            range 49 57;
                            RSeq (lit 32) (range 49 57) ]) ].

(** The characters before the first line feed of [d]. *)
Definition first_line (d : str) : str := fst (span cls_dot d).

(** A float that is neither negative nor a NaN. *)
Definition is_nonneg (x : float) : bool :=
  match x with
  | S754_zero false | S754_finite false _ _ | S754_infinity false => true
  | _ => false
  end.

(** The messages [webhook] takes for commands. *)
Definition is_command (incoming_msg : str) : bool :=
  str_in incoming_msg [list_ascii_of_string "summary";
                       list_ascii_of_string "today"]
  || bool_decide (incoming_msg = "week")
  || bool_decide (incoming_msg = "month")
  || bool_decide (incoming_msg = "help").

(** * Properties of the built-ins *)

(** ** Lists of characters of one class *)

Lemma all_nil p : all p [].
Proof. constructor. Qed.

Lemma all_cons p a u : all p (a :: u) <-> p a = true /\ all p u.
Proof.
  unfold all. split.
  - intros H. inversion H; subst. now split.
  - intros [H1 H2]. now constructor.
Qed.

Lemma all_app p u v : all p (u ++ v) <-> all p u /\ all p v.
Proof. unfold all. apply List.Forall_app. Qed.

#[local] Hint Resolve all_nil : core.

Lemma span_app p u v : all p u -> stops p v -> span p (u ++ v) = (u, v).
Proof.
  intros Hu Hv. induction u as [|a u IH]; simpl.
  - destruct v as [|b v]; simpl in *; [reflexivity | now rewrite Hv].
  - apply all_cons in Hu as [-> Hu]. now rewrite IH.
Qed.

(** A maximal run of one class at the head of a string is unique. *)
Lemma run_unique p u v u' v' :
  all p u -> stops p v -> all p u' -> stops p v' ->
  u ++ v = u' ++ v' -> u = u' /\ v = v'.
Proof.
  intros Hu Hv Hu' Hv' E.
  pose proof (span_app p u v Hu Hv) as E1.
  pose proof (span_app p u' v' Hu' Hv') as E2.
  rewrite E in E1. rewrite E1 in E2. now inversion E2.
Qed.

(** If a run of class [p] followed by [u] reaches past a character [x]
    outside [p], then [x] and all that follows it lie in [u]. *)
Lemma run_before_stop p a u w x r :
  all p a -> p x = false -> a ++ u = w ++ x :: r ->
  exists w', u = w' ++ x :: r /\ w = a ++ w'.
Proof.
  revert w. induction a as [|c a IH]; intros w Ha Hx E; simpl in *.
  - now exists w.
  - apply all_cons in Ha as [Hc Ha]. destruct w as [|d w]; simpl in E.
    + inversion E; subst. congruence.
    + inversion E; subst. destruct (IH w Ha Hx H1) as (w' & -> & ->).
      now exists w'.
Qed.

(** ** [strip] *)

Lemma lstrip_with_app p u v :
  all p u -> stops p v -> lstrip_with p (u ++ v) = v.
Proof.
  intros Hu Hv. induction u as [|a u IH]; simpl.
  - destruct v as [|b v]; simpl in *; [reflexivity | now rewrite Hv].
  - apply all_cons in Hu as [-> Hu]. auto.
Qed.

Lemma lstrip_with_split p s :
  exists u, s = u ++ lstrip_with p s /\ all p u /\ stops p (lstrip_with p s).
Proof.
  induction s as [|a s (u & E & Hu & Hs)]; simpl.
  - now exists [].
  - destruct (p a) eqn:Ha.
    + exists (a :: u). split; [simpl; congruence|]. split; [|assumption].
      now apply all_cons.
    + exists []. simpl. now rewrite Ha.
Qed.

Lemma all_rev p u : all p (rev u) <-> all p u.
Proof. unfold all. rewrite !List.Forall_forall. setoid_rewrite <- in_rev. reflexivity. Qed.

Lemma ends_snoc p v x : ends p (v ++ [x]) <-> p x = false.
Proof. unfold ends. rewrite rev_unit. reflexivity. Qed.

Lemma ends_inv p v : ends p v -> v = [] \/ exists v' x, v = v' ++ [x] /\ p x = false.
Proof.
  unfold ends. intros H. destruct (rev v) as [|x r] eqn:E.
  - left. apply (f_equal (@rev ascii)) in E. now rewrite rev_involutive in E.
  - right. exists (rev r), x. split; [|exact H].
    apply (f_equal (@rev ascii)) in E. now rewrite rev_involutive in E.
Qed.

Lemma ends_app p u v : v <> [] -> ends p v -> ends p (u ++ v).
Proof.
  intros Hv H. destruct (ends_inv _ _ H) as [->|(v' & x & -> & Hx)]; [congruence|].
  rewrite app_assoc. now apply ends_snoc.
Qed.

Lemma stops_app p u v : u <> [] -> stops p u -> stops p (u ++ v).
Proof. destruct u; [congruence | auto]. Qed.

Lemma strip_with_split p s :
  exists l r, s = l ++ strip_with p s ++ r /\ all p l /\ all p r /\
              stops p (strip_with p s) /\ ends p (strip_with p s).
Proof.
  unfold strip_with, rstrip_with.
  destruct (lstrip_with_split p s) as (l & E & Hl & Hs).
  destruct (lstrip_with_split p (rev (lstrip_with p s))) as (r & E' & Hr & Hs').
  set (t := lstrip_with p (rev (lstrip_with p s))) in *.
  assert (Et : lstrip_with p s = rev t ++ rev r).
  { rewrite <- rev_app_distr, <- E'. now rewrite rev_involutive. }
  exists l, (rev r). split; [now rewrite <- Et|]. split; [assumption|].
  split; [now apply all_rev|]. split.
  - rewrite Et in Hs. destruct (rev t) as [|a t'] eqn:Ert; simpl in *; auto.
  - unfold ends. now rewrite rev_involutive.
Qed.

Lemma strip_with_app p l b r :
  all p l -> all p r -> stops p b -> ends p b -> b <> [] ->
  strip_with p (l ++ b ++ r) = b.
Proof.
  intros Hl Hr Hb He Hne. unfold strip_with, rstrip_with.
  rewrite (lstrip_with_app p l (b ++ r)) by (auto using stops_app).
  rewrite rev_app_distr.
  rewrite (lstrip_with_app p (rev r) (rev b)); [apply rev_involutive| |exact He].
  now apply all_rev.
Qed.

Lemma strip_with_id p b : stops p b -> ends p b -> strip_with p b = b.
Proof.
  intros Hb He. destruct b as [|a b]; [reflexivity|].
  rewrite <- (app_nil_r (a :: b)) at 1.
  now apply (strip_with_app p [] (a :: b) []).
Qed.

Lemma strip_with_idem p s : strip_with p (strip_with p s) = strip_with p s.
Proof.
  destruct (strip_with_split p s) as (l & r & _ & _ & _ & Hs & He).
  now apply strip_with_id.
Qed.

(** ** The matcher *)

Lemma rep_greedy_sound p s : forall min i c k m,
  rep_greedy p min i s c k = Some m ->
  exists u s', s = u ++ s' /\ all p u /\ (min <= length u)%nat /\
               k (i + length u)%nat s' c = Some m.
Proof.
  induction s as [|a s IH]; intros min i c k m H; simpl in H.
  - destruct min; [|discriminate]. exists [], []. simpl.
    rewrite Nat.add_0_r. auto.
  - assert (Hstop : match min with O => k i (a :: s) c | S _ => None end = Some m ->
                    exists u s', a :: s = u ++ s' /\ all p u /\ (min <= length u)%nat /\
                                 k (i + length u)%nat s' c = Some m).
    { destruct min; [|discriminate]. intros Hk. exists [], (a :: s). simpl.
      rewrite Nat.add_0_r. auto. }
    destruct (p a) eqn:Ha; [|auto].
    destruct (rep_greedy p (pred min) (S i) s c k) as [m'|] eqn:E; [|auto].
    inversion H; subst m'. destruct (IH _ _ _ _ _ E) as (u & s' & Es & Hu & Hm & Hk).
    subst s.
    exists (a :: u), s'. simpl. split; [reflexivity|]. split; [now apply all_cons|].
    split; [lia|]. now rewrite Nat.add_succ_r.
Qed.

Lemma rep_lazy_sound p s : forall min i c k m,
  rep_lazy p min i s c k = Some m ->
  exists u s', s = u ++ s' /\ all p u /\ (min <= length u)%nat /\
               k (i + length u)%nat s' c = Some m.
Proof.
  induction s as [|a s IH]; intros min i c k m H; simpl in H.
  - destruct min; [|discriminate]. destruct (k i [] c) eqn:E; [|discriminate].
    exists [], []. simpl. rewrite Nat.add_0_r. rewrite E. auto.
  - assert (Hmore : (if p a then rep_lazy p (pred min) (S i) s c k else None) = Some m ->
                    exists u s', a :: s = u ++ s' /\ all p u /\ (min <= length u)%nat /\
                                 k (i + length u)%nat s' c = Some m).
    { destruct (p a) eqn:Ha; [|discriminate]. intros E.
      destruct (IH _ _ _ _ _ E) as (u & s' & Es & Hu & Hm & Hk). subst s.
      exists (a :: u), s'. simpl. split; [reflexivity|]. split; [now apply all_cons|].
      split; [lia|]. now rewrite Nat.add_succ_r. }
    destruct min; [|auto].
    destruct (k i (a :: s) c) eqn:E; [|auto].
    exists [], (a :: s). simpl. rewrite Nat.add_0_r. rewrite E. auto.
Qed.

(** Soundness: a successful run of the matcher consumed a prefix the
    pattern can match, and the continuation accepted what was left. *)
Theorem rmatch_sound r : forall i s c k m,
  rmatch r i s c k = Some m ->
  exists u s' c', s = u ++ s' /\ matches r i u s' /\
                  k (i + length u)%nat s' c' = Some m.
Proof.
  induction r as [|p|r1 IH1 r2 IH2|r1 IH1 r2 IH2|g min p|n r IH| |];
    intros i s c k m H; simpl in H.
  - exists [], s, c. simpl. rewrite Nat.add_0_r. auto using matches.
  - destruct s as [|a s]; [discriminate|]. destruct (p a) eqn:Ha; [|discriminate].
    exists [a], s, c. simpl. rewrite Nat.add_1_r. auto using matches.
  - apply IH1 in H as (u1 & s1 & c1 & -> & M1 & H).
    apply IH2 in H as (u2 & s2 & c2 & -> & M2 & H).
    exists (u1 ++ u2), s2, c2. rewrite length_app, Nat.add_assoc, <- app_assoc.
    auto using matches.
  - destruct (rmatch r1 i s c k) as [m'|] eqn:E.
    + inversion H; subst m'. apply IH1 in E as (u & s' & c' & -> & M & E).
      exists u, s', c'. auto using matches.
    + apply IH2 in H as (u & s' & c' & -> & M & H).
      exists u, s', c'. auto using matches.
  - assert (exists u s', s = u ++ s' /\ all p u /\ (min <= length u)%nat /\
                         k (i + length u)%nat s' c = Some m) as (u & s' & -> & Hu & Hm & Hk).
    { destruct g; [eapply rep_greedy_sound | eapply rep_lazy_sound]; eassumption. }
    exists u, s', c. auto using matches.
  - apply IH in H as (u & s' & c' & -> & M & H).
    eexists u, s', _. split; [reflexivity|]. split; [now constructor|]. exact H.
  - destruct i; [|discriminate]. exists [], s, c. auto using matches.
  - destruct s as [|a [|b s]]; try discriminate.
    + exists [], [], c. simpl. rewrite Nat.add_0_r. auto using matches.
    + destruct (ascii_dec a newline) as [->|]; [|discriminate].
      exists [], [newline], c. simpl. rewrite Nat.add_0_r. auto using matches.
Qed.

(** A greedy repetition that can take a whole maximal run and whose
    continuation accepts after it, does so. *)
Lemma rep_greedy_run p u : forall min i s c k m,
  all p u -> stops p s -> (min <= length u)%nat ->
  k (i + length u)%nat s c = Some m ->
  rep_greedy p min i (u ++ s) c k = Some m.
Proof.
  induction u as [|a u IH]; intros min i s c k m Hu Hs Hm Hk; simpl in *.
  - assert (min = O) as -> by lia. rewrite Nat.add_0_r in Hk.
    destruct s as [|b s]; simpl in *; [assumption | now rewrite Hs].
  - apply all_cons in Hu as [-> Hu].
    rewrite (IH (pred min) (S i) s c k m); auto; [lia|].
    now rewrite Nat.add_succ_r in Hk.
Qed.

(** A lazy repetition stops at the first length, from [min] up, at which
    the continuation accepts. *)
Lemma rep_lazy_first p u : forall min i s c k m,
  all p u -> (min <= length u)%nat ->
  k (i + length u)%nat s c = Some m ->
  (forall j, (min <= j < length u)%nat -> k (i + j)%nat (skipn j u ++ s) c = None) ->
  rep_lazy p min i (u ++ s) c k = Some m.
Proof.
  induction u as [|a u IH]; intros min i s c k m Hu Hm Hk Hn.
  - assert (min = O) as -> by (simpl in Hm; lia). simpl in *.
    rewrite Nat.add_0_r in Hk. destruct s; simpl; now rewrite Hk.
  - apply all_cons in Hu as [Ha Hu].
    assert (Hmore : rep_lazy p (pred min) (S i) (u ++ s) c k = Some m).
    { apply IH; auto; [simpl in Hm; lia | |].
      { replace (S i + length u)%nat with (i + length (a :: u))%nat by (simpl; lia).
        exact Hk. }
      intros j Hj. specialize (Hn (S j)). simpl in Hn.
      rewrite Nat.add_succ_r in Hn. apply Hn. lia. }
    simpl. rewrite Ha. destruct min; [|exact Hmore].
    specialize (Hn O). simpl in Hn. rewrite Nat.add_0_r in Hn.
    rewrite Hn by lia. exact Hmore.
Qed.

Lemma search_from_skip r u : forall i s,
  (forall j, (j < length u)%nat ->
             rmatch r (i + j) (skipn j u ++ s) [] accept = None) ->
  search_from r i (u ++ s) = search_from r (i + length u) s.
Proof.
  induction u as [|a u IH]; intros i s H; simpl.
  - now rewrite Nat.add_0_r.
  - pose proof (H O) as H0. simpl in H0. rewrite Nat.add_0_r in H0.
    rewrite H0 by lia. rewrite <- Nat.add_succ_comm. apply IH.
    intros j Hj. specialize (H (S j)). simpl in H.
    rewrite Nat.add_succ_r in H. apply H. lia.
Qed.

Lemma search_from_sound r : forall s i m,
  search_from r i s = Some m ->
  exists pre s', s = pre ++ s' /\ rmatch r (i + length pre) s' [] accept = Some m.
Proof.
  induction s as [|a s IH]; intros i m H; simpl in H.
  - destruct (rmatch r i [] [] accept) eqn:E; [|discriminate].
    exists [], []. simpl. rewrite Nat.add_0_r. now rewrite E.
  - destruct (rmatch r i (a :: s) [] accept) eqn:E.
    + exists [], (a :: s). simpl. rewrite Nat.add_0_r. now rewrite E.
    + apply IH in H as (pre & s' & -> & H). exists (a :: pre), s'. simpl.
      now rewrite Nat.add_succ_r.
Qed.

(** ** The character classes *)

Ltac cls :=
  unfold cls_space, cls_digit, cls_digit_or_dot, cls_range, cls_lit,
    is_space, is_digit, float_space, is_underscore in *;
  rewrite ?orb_true_iff, ?andb_true_iff, ?orb_false_iff, ?andb_false_iff,
    ?Z.leb_le, ?Z.eqb_eq, ?Z.leb_gt, ?Z.eqb_neq in *;
  try lia.

Lemma digit_or_dot_not_space c : cls_digit_or_dot c = true -> cls_space c = false.
Proof. intros H. cls. Qed.

Lemma space_not_digit_or_dot c : cls_space c = true -> cls_digit_or_dot c = false.
Proof. intros H. cls. Qed.

Lemma dot_iff c : cls_dot c = true <-> c <> newline.
Proof. unfold cls_dot. destruct (ascii_dec c newline); split; congruence. Qed.

Lemma not_space_dot c : cls_space c = false -> cls_dot c = true.
Proof.
  intros H. apply dot_iff. intros ->. vm_compute in H. discriminate.
Qed.

Lemma digit_or_dot_dot c : cls_digit_or_dot c = true -> cls_dot c = true.
Proof. intros H. now apply not_space_dot, digit_or_dot_not_space. Qed.

Lemma all_impl (p q : ascii -> bool) u :
  (forall c, p c = true -> q c = true) -> all p u -> all q u.
Proof. intros H. unfold all. apply List.Forall_impl. exact H. Qed.

Lemma stops_head (p q : ascii -> bool) u r :
  u <> [] -> all q u -> (forall c, q c = true -> p c = false) -> stops p (u ++ r).
Proof.
  intros Hne Hu H. destruct u as [|a u]; [congruence|].
  apply all_cons in Hu as [Ha _]. simpl. auto.
Qed.

Lemma rev_nonempty (u : str) : u <> [] -> rev u <> [].
Proof.
  intros H E. apply H. apply (f_equal (@rev ascii)) in E.
  now rewrite rev_involutive in E.
Qed.

(** ** The trailing-amount pattern *)

Lemma pat_trailing_unfold i s c k :
  rmatch pat_trailing i s c k =
  rep_lazy cls_dot 1 i s c
    (fun i' s' c' => rmatch pat_tail i' s' ((1%nat, firstn (i' - i) s) :: c') k).
Proof. reflexivity. Qed.

Lemma pat_tail_accepts i w tok c :
  w <> [] -> all cls_space w -> tok <> [] -> all cls_digit_or_dot tok ->
  rmatch pat_tail i (w ++ tok) c accept =
  Some ((i + length w + length tok)%nat, (2%nat, tok) :: c).
Proof.
  intros Hw Hws Ht Htd. simpl.
  apply rep_greedy_run; auto.
  { rewrite <- (app_nil_r tok).
    apply stops_head with (q := cls_digit_or_dot); auto using digit_or_dot_not_space. }
  { destruct w; [congruence | simpl; lia]. }
  rewrite <- (app_nil_r tok) at 1.
  apply rep_greedy_run; auto.
  { exact I. }
  { destruct tok; [congruence | simpl; lia]. }
  simpl. unfold accept.
  replace (i + length w + length tok - (i + length w))%nat with (length tok) by lia.
  now rewrite firstn_all.
Qed.

Lemma pat_tail_sound i s c m :
  rmatch pat_tail i s c accept = Some m ->
  exists a b c0, s = a ++ b ++ c0 /\ a <> [] /\ all cls_space a /\
                 b <> [] /\ all cls_digit_or_dot b /\ all cls_space c0.
Proof.
  intros H. apply rmatch_sound in H as (u & s' & c' & -> & M & _).
  unfold pat_tail in M. simpl in M.
  inversion M as [| |? ? ? a u2 ? Ma M2| | | | | |]; subst; clear M.
  inversion M2 as [| |? ? ? b u3 ? Mb M3| | | | | |]; subst; clear M2.
  inversion M3 as [| |? ? ? c0 u4 ? Mc M4| | | | | |]; subst; clear M3.
  inversion Ma; subst. inversion Mb as [| | | | | |? ? ? ? ? Mb'| |]; subst.
  inversion Mb'; subst. inversion Mc; subst. inversion M4; subst.
  exists a, b, (c0 ++ s'). rewrite app_nil_r, <- !app_assoc.
  split; [reflexivity|].
  split; [intros ->; simpl in *; lia|]. split; [assumption|].
  split; [intros ->; simpl in *; lia|]. split; [assumption|].
  apply all_app. split; [assumption|].
  match goal with H : _ \/ _ |- _ => destruct H as [->| ->] end; auto.
  apply all_cons. split; [reflexivity | auto].
Qed.

Lemma pat_trailing_sound i s m :
  rmatch pat_trailing i s [] accept = Some m ->
  exists u1 a b c0, s = u1 ++ a ++ b ++ c0 /\ u1 <> [] /\ all cls_dot u1 /\
                    a <> [] /\ all cls_space a /\
                    b <> [] /\ all cls_digit_or_dot b /\ all cls_space c0.
Proof.
  rewrite pat_trailing_unfold. intros H.
  apply rep_lazy_sound in H as (u1 & s' & -> & Hu & Hlen & H).
  apply pat_tail_sound in H as (a & b & c0 & -> & H).
  exists u1, a, b, c0. split; [reflexivity|].
  split; [intros ->; simpl in *; lia|]. split; assumption.
Qed.

(** How a match of the trailing-amount pattern lies in a string that
    ends with a character [x] that is no whitespace, whitespace [w] and
    a token [tok]: the token is the second group, nothing follows it,
    and the first group reaches at least to [x]. *)
Lemma trailing_shape u1 a b c0 pre x w tok :
  a <> [] -> all cls_space a -> b <> [] -> all cls_digit_or_dot b ->
  all cls_space c0 ->
  cls_space x = false -> w <> [] -> all cls_space w ->
  tok <> [] -> all cls_digit_or_dot tok ->
  u1 ++ a ++ b ++ c0 = pre ++ x :: w ++ tok ->
  b = tok /\ c0 = [] /\ exists w', u1 = pre ++ x :: w' /\ w = w' ++ a.
Proof.
  intros Ha Has Hb Hbd Hc Hx Hw Hws Ht Htd E.
  apply (f_equal (@rev ascii)) in E.
  repeat (rewrite ?rev_app_distr in E; simpl in E). rewrite <- !app_assoc in E.
  simpl in E.
  assert (E1 : rev c0 = [] /\
               rev b ++ rev a ++ rev u1 = rev tok ++ rev w ++ x :: rev pre).
  { apply (run_unique cls_space (rev c0) _ [] _); auto.
    - now apply all_rev.
    - apply stops_head with (q := cls_digit_or_dot);
        auto using rev_nonempty, digit_or_dot_not_space. now apply all_rev.
    - apply stops_head with (q := cls_digit_or_dot);
        auto using rev_nonempty, digit_or_dot_not_space. now apply all_rev. }
  destruct E1 as [Ec E1].
  assert (E2 : rev b = rev tok /\ rev a ++ rev u1 = rev w ++ x :: rev pre).
  { apply (run_unique cls_digit_or_dot); auto.
    - now apply all_rev.
    - apply stops_head with (q := cls_space);
        auto using rev_nonempty, space_not_digit_or_dot. now apply all_rev.
    - now apply all_rev.
    - apply stops_head with (q := cls_space);
        auto using rev_nonempty, space_not_digit_or_dot. now apply all_rev. }
  destruct E2 as [Eb E2].
  apply run_before_stop with (p := cls_space) in E2 as (w' & Eu & Ew);
    [|now apply all_rev|assumption].
  apply (f_equal (@rev ascii)) in Ec, Eb, Eu, Ew.
  rewrite ?rev_involutive in *. rewrite rev_app_distr in Eu, Ew.
  simpl in Eu. rewrite rev_involutive in *. rewrite <- app_assoc in Eu. simpl in Eu.
  subst. split; [reflexivity|]. split; [reflexivity|]. now exists (rev w').
Qed.

Lemma app_cons_nonempty (u v : str) x : u ++ x :: v <> [].
Proof. destruct u; discriminate. Qed.

Lemma all_ends (p q : ascii -> bool) u :
  all q u -> (forall c, q c = true -> p c = false) -> ends p u.
Proof.
  intros Hu H. unfold ends. apply all_rev in Hu.
  destruct (rev u) as [|a r]; [exact I|]. apply all_cons in Hu as [Ha _].
  simpl. auto.
Qed.

Lemma all_stops (p q : ascii -> bool) u :
  all q u -> (forall c, q c = true -> p c = false) -> stops p u.
Proof.
  intros Hu H. destruct u as [|a r]; [exact I|]. apply all_cons in Hu as [Ha _].
  simpl. auto.
Qed.

Lemma span_split p s :
  s = fst (span p s) ++ snd (span p s) /\ all p (fst (span p s)) /\
  stops p (snd (span p s)).
Proof.
  induction s as [|a s (E & Hu & Hv)]; simpl; [auto|].
  destruct (p a) eqn:Ha.
  - destruct (span p s) as [u v]. simpl in *. split; [congruence|].
    split; [now apply all_cons | assumption].
  - simpl. auto.
Qed.

Lemma span_all p u : all p u -> span p u = (u, []).
Proof.
  intros H. rewrite <- (app_nil_r u) at 1. now apply span_app.
Qed.

Lemma last_line_split d :
  exists pre, d = pre ++ last_line d /\ all cls_dot (last_line d) /\
              ends cls_dot pre.
Proof.
  unfold last_line. destruct (span_split cls_dot (rev d)) as (E & Hu & Hv).
  exists (rev (snd (span cls_dot (rev d)))). split; [|split].
  - rewrite <- rev_app_distr, <- E. now rewrite rev_involutive.
  - now apply all_rev.
  - unfold ends. now rewrite rev_involutive.
Qed.

Lemma last_line_id d : all cls_dot d -> last_line d = d.
Proof.
  intros H. unfold last_line. rewrite <- (app_nil_r (rev d)).
  rewrite span_app; [apply rev_involutive | now apply all_rev | exact I].
Qed.

Lemma last_line_ends d :
  d <> [] -> ends cls_space d ->
  last_line d <> [] /\ ends cls_space (last_line d).
Proof.
  intros Hne He. destruct (ends_inv _ _ He) as [->|(d' & x & -> & Hx)]; [congruence|].
  unfold last_line. rewrite rev_unit. simpl. rewrite (not_space_dot x Hx).
  destruct (span cls_dot (rev d')) as [u v]. simpl. split.
  - apply app_cons_nonempty.
  - now apply ends_snoc.
Qed.

Lemma search_from_here r i s m :
  rmatch r i s [] accept = Some m -> search_from r i s = Some m.
Proof. intros H. destruct s; simpl; now rewrite H. Qed.

Lemma skipn_snoc (u : str) x j :
  (j <= length u)%nat -> skipn j (u ++ [x]) = skipn j u ++ [x].
Proof.
  intros H. rewrite skipn_app. replace (j - length u)%nat with O by lia.
  reflexivity.
Qed.

(** [re.search] with the trailing-amount pattern on a string that ends
    with a line that ends in no whitespace, whitespace and a token. *)
Lemma trailing_search i pre d w tok :
  ends cls_dot pre -> d <> [] -> all cls_dot d -> ends cls_space d ->
  w <> [] -> all cls_space w -> tok <> [] -> all cls_digit_or_dot tok ->
  exists e, search_from pat_trailing i (pre ++ d ++ w ++ tok) =
            Some (e, [(2%nat, tok); (1%nat, d)]).
Proof.
  intros Hpre Hd Hdd Hde Hw Hws Ht Htd.
  destruct (ends_inv _ _ Hde) as [->|(d' & x & Ed & Hx)]; [congruence|].
  rewrite search_from_skip.
  - eexists. apply search_from_here. rewrite pat_trailing_unfold.
    apply rep_lazy_first; auto.
    + destruct d; [congruence | simpl; lia].
    + rewrite pat_tail_accepts by assumption.
      replace (i + length pre + length d - (i + length pre))%nat
        with (length d) by lia.
      rewrite firstn_app, firstn_all, Nat.sub_diag. simpl.
      rewrite app_nil_r. reflexivity.
    + intros j Hj.
      match goal with |- ?t = None => destruct t as [m|] eqn:E; [|reflexivity] end.
      exfalso. apply pat_tail_sound in E as (a & b & c0 & E & Ha & Has & Hb & Hbd & Hc).
      subst d. rewrite length_app in Hj. simpl in Hj.
      rewrite skipn_snoc in E by lia. rewrite <- app_assoc in E. simpl in E.
      symmetry in E.
      apply (trailing_shape [] a b c0 (skipn j d') x w tok) in E
        as (_ & _ & w' & E & _); auto.
      now apply app_cons_not_nil in E.
  - intros j Hj.
    match goal with |- ?t = None => destruct t as [m|] eqn:E; [|reflexivity] end.
    exfalso.
    apply pat_trailing_sound in E
      as (u1 & a & b & c0 & E & Hu & Hud & Ha & Has & Hb & Hbd & Hc).
    destruct (ends_inv _ _ Hpre) as [->|(p' & y & -> & Hy)]; [simpl in Hj; lia|].
    rewrite length_app in Hj. simpl in Hj.
    rewrite skipn_snoc in E by lia. subst d.
    replace ((skipn j p' ++ [y]) ++ (d' ++ [x]) ++ w ++ tok)
      with ((skipn j p' ++ [y] ++ d') ++ x :: w ++ tok) in E
      by (rewrite <- !app_assoc; reflexivity).
    symmetry in E.
    apply trailing_shape in E as (_ & _ & w' & E & _); auto.
    subst u1. rewrite <- !app_assoc in Hud.
    apply all_app in Hud as [_ Hud]. apply all_app in Hud as [Hud _].
    apply all_cons in Hud as [Hud _]. congruence.
Qed.

(** ** [float] on a decimal token *)

Lemma drop_underscores_id u : forall prev,
  is_underscore prev = false -> all cls_digit_or_dot u ->
  drop_underscores prev u = Some u.
Proof.
  induction u as [|c u IH]; intros prev Hp Hu; simpl.
  - now rewrite Hp.
  - apply all_cons in Hu as [Hc Hu].
    assert (Hcu : is_underscore c = false) by cls.
    rewrite Hcu, Hp. simpl. now rewrite IH.
Qed.

Lemma take_sign_none u :
  stops (fun c => (code c =? 45) || (code c =? 43)) u -> take_sign u = (false, u).
Proof.
  destruct u as [|c u]; simpl; [reflexivity|]. intros H.
  apply orb_false_iff in H as [-> ->]. reflexivity.
Qed.

Lemma digit_digit_or_dot c : is_digit c = true -> cls_digit_or_dot c = true.
Proof. intros H. cls. Qed.

Lemma decimal_token_chars tok D E :
  decimal_token tok D E -> tok <> [] /\ all cls_digit_or_dot tok.
Proof.
  intros [ip Hne Hi | ip fp Hne Hi Hf].
  - split; [assumption|]. eapply all_impl; [apply digit_digit_or_dot | assumption].
  - split; [apply app_cons_nonempty|].
    apply all_app. split; [eapply all_impl; [apply digit_digit_or_dot | assumption]|].
    apply all_cons. split; [reflexivity|].
    eapply all_impl; [apply digit_digit_or_dot | assumption].
Qed.

Lemma parse_decimal_token tok D E :
  decimal_token tok D E ->
  parse_decimal tok = Some (decimal_to_float false D E, []).
Proof.
  intros H. pose proof (decimal_token_chars _ _ _ H) as [Hne Hall].
  unfold parse_decimal. rewrite take_sign_none.
  2:{ eapply all_stops; [exact Hall|]. intros c Hc. cls. }
  destruct H as [ip Hip Hi | ip fp Hip Hi Hf].
  - rewrite span_all by assumption.
    rewrite app_nil_r. destruct ip; [congruence|]. reflexivity.
  - rewrite span_app; [|assumption|reflexivity].
    change (list_ascii_of_string "." ++ fp) with ("."%char :: fp).
    cbv iota. change (code "."%char =? 46) with true. cbv iota.
    rewrite span_all by assumption.
    destruct (ip ++ fp) eqn:E; [congruence|]. simpl. reflexivity.
Qed.

Lemma py_float_decimal_token tok D E :
  decimal_token tok D E -> py_float tok = Returned (decimal_to_float false D E).
Proof.
  intros H. pose proof (decimal_token_chars _ _ _ H) as [Hne Hall].
  unfold py_float. rewrite strip_with_id.
  - rewrite drop_underscores_id by auto. now rewrite (parse_decimal_token _ _ _ H).
  - eapply all_stops; [exact Hall|]. intros c Hc. cls.
  - eapply all_ends; [exact Hall|]. intros c Hc. cls.
Qed.

(** ** [parse_expense] on the trailing-amount form *)

Lemma strip_form description sep amount :
  strip description <> [] -> sep <> [] -> all cls_space sep ->
  amount <> [] -> all cls_digit_or_dot amount ->
  exists w, strip (description ++ sep ++ amount) = strip description ++ w ++ amount
            /\ w <> [] /\ all cls_space w.
Proof.
  intros Hd Hsep Hs Ha Had. unfold strip in *.
  destruct (strip_with_split is_space description) as (l & r & E & Hl & Hr & Hb & He).
  exists (r ++ sep). split; [|split].
  - rewrite E at 1.
    replace ((l ++ strip_with is_space description ++ r) ++ sep ++ amount)
      with (l ++ (strip_with is_space description ++ (r ++ sep) ++ amount) ++ [])
      by (rewrite app_nil_r, <- !app_assoc; reflexivity).
    apply strip_with_app; auto.
    + now apply stops_app.
    + apply ends_app.
      { intros E'. apply app_eq_nil in E' as [_ E']. congruence. }
      apply ends_app; [assumption|].
      eapply all_ends; [exact Had | apply digit_or_dot_not_space].
    + intros E'. apply app_eq_nil in E' as [E' _]. congruence.
  - intros E'. apply app_eq_nil in E' as [_ E']. congruence.
  - apply all_app. now split.
Qed.

Lemma parse_expense_trailing text d w tok :
  strip text = d ++ w ++ tok ->
  d <> [] -> ends cls_space d -> w <> [] -> all cls_space w ->
  tok <> [] -> all cls_digit_or_dot tok ->
  parse_expense text =
  (amount ← py_float tok; mret (Some (strip (last_line d)), Some amount)).
Proof.
  intros E Hd Hde Hw Hws Ht Htd. unfold parse_expense, re_search. rewrite E.
  destruct (last_line_split d) as (pre & Ed & Hl & Hpre).
  destruct (last_line_ends d Hd Hde) as [Hlne Hle].
  rewrite Ed at 1. rewrite <- app_assoc.
  destruct (trailing_search 0 pre (last_line d) w tok) as [e ->]; auto.
Qed.

(** ** Where the two patterns can match at all *)

Lemma re_search_trailing_sound s m :
  re_search pat_trailing s = Some m ->
  exists pre u1 a b c0, s = pre ++ u1 ++ a ++ b ++ c0 /\ u1 <> [] /\ all cls_dot u1 /\
                        a <> [] /\ all cls_space a /\
                        b <> [] /\ all cls_digit_or_dot b /\ all cls_space c0.
Proof.
  intros H. apply search_from_sound in H as (pre & s' & -> & H).
  apply pat_trailing_sound in H as (u1 & a & b & c0 & -> & H).
  now exists pre, u1, a, b, c0.
Qed.

Lemma re_search_leading_sound s m :
  re_search pat_leading s = Some m ->
  exists b a u r, s = b ++ a ++ u ++ r /\ b <> [] /\ all cls_digit_or_dot b /\
                  a <> [] /\ all cls_space a /\ u <> [] /\ all cls_dot u.
Proof.
  intros H. apply search_from_sound in H as (pre & s' & -> & H).
  apply rmatch_sound in H as (u0 & r & c' & -> & M & _).
  unfold pat_leading in M. simpl in M.
  inversion M as [| |? ? ? e u2 ? Me M2| | | | | |]; subst; clear M.
  inversion M2 as [| |? ? ? b u3 ? Mb M3| | | | | |]; subst; clear M2.
  inversion M3 as [| |? ? ? a u ? Ma Mu| | | | | |]; subst; clear M3.
  inversion Me as [| | | | | | |s0 Hpos|]; subst.
  inversion Mb as [| | | | | |? ? ? ? ? Mb'| |]; subst. inversion Mb'; subst.
  inversion Ma; subst.
  inversion Mu as [| | | | | |? ? ? ? ? Mu'| |]; subst. inversion Mu'; subst.
  destruct pre; [|discriminate]. simpl.
  exists b, a, u, r. rewrite <- !app_assoc. split; [reflexivity|].
  repeat split; auto; intros ->; simpl in *; lia.
Qed.

Lemma nonspace_space c : cls_space c = true -> cls_nonspace c = false.
Proof. unfold cls_nonspace, cls_space. now intros ->. Qed.

Lemma parse_expense_unmatched text :
  re_search pat_trailing (strip text) = None ->
  re_search pat_leading (strip text) = None ->
  parse_expense text = Returned (None, None).
Proof. intros H1 H2. unfold parse_expense. now rewrite H1, H2. Qed.

Lemma all_no_run (p q : ascii -> bool) (l a r : str) :
  (forall c, q c = true -> p c = false) ->
  a <> [] -> all q a -> all p (l ++ a ++ r) -> False.
Proof.
  intros H Ha Hq Hp. destruct a as [|c a]; [congruence|].
  apply all_app in Hp as [_ Hp]. apply all_app in Hp as [Hp _].
  apply all_cons in Hp as [Hp _]. apply all_cons in Hq as [Hq _].
  apply H in Hq. congruence.
Qed.

(** A string of digits and points only matches neither pattern. *)
Lemma token_only_unmatched s :
  all cls_digit_or_dot s ->
  re_search pat_trailing s = None /\ re_search pat_leading s = None.
Proof.
  intros Hs. split.
  - destruct (re_search pat_trailing s) as [m|] eqn:E; [|reflexivity]. exfalso.
    apply re_search_trailing_sound in E
      as (pre & u1 & a & b & c0 & -> & _ & _ & Ha & Has & _).
    rewrite app_assoc in Hs.
    eapply (all_no_run cls_digit_or_dot cls_space); eauto using space_not_digit_or_dot.
  - destruct (re_search pat_leading s) as [m|] eqn:E; [|reflexivity]. exfalso.
    apply re_search_leading_sound in E
      as (b & a & u & r & -> & _ & _ & Ha & Has & _).
    eapply (all_no_run cls_digit_or_dot cls_space); eauto using space_not_digit_or_dot.
Qed.

(** A string without a numeric word matches neither pattern, whatever
    whitespace surrounds it. *)
Lemma no_token_unmatched text :
  ~ has_numeric_token text ->
  re_search pat_trailing (strip text) = None /\
  re_search pat_leading (strip text) = None.
Proof.
  intros Hno. unfold strip.
  destruct (strip_with_split is_space text) as (l & r & E & Hl & Hr & _ & _).
  split.
  - destruct (re_search pat_trailing _) as [m|] eqn:Em; [|reflexivity]. exfalso.
    apply re_search_trailing_sound in Em
      as (pre & u1 & a & b & c0 & Es & _ & _ & Ha & Has & Hb & Hbd & Hc).
    apply Hno. exists (l ++ pre ++ u1 ++ a), b, (c0 ++ r).
    split; [|split; [now split|split]].
    + rewrite E at 1. rewrite Es. now rewrite <- !app_assoc.
    + rewrite !app_assoc. apply ends_app; [assumption|].
      eapply all_ends; [exact Has | apply nonspace_space].
    + eapply all_stops; [|apply nonspace_space]. apply all_app. now split.
  - destruct (re_search pat_leading _) as [m|] eqn:Em; [|reflexivity]. exfalso.
    apply re_search_leading_sound in Em
      as (b & a & u & r' & Es & Hb & Hbd & Ha & Has & _).
    apply Hno. exists l, b, (a ++ u ++ r' ++ r).
    split; [|split; [now split|split]].
    + rewrite E at 1. rewrite Es. now rewrite <- !app_assoc.
    + eapply all_ends; [exact Hl | apply nonspace_space].
    + eapply stops_head; [exact Ha | exact Has | apply nonspace_space].
Qed.

(** ** The leading-amount pattern on two tokens *)

Lemma leading_accepts tok w rest :
  tok <> [] -> all cls_digit_or_dot tok -> w <> [] -> all cls_space w ->
  rest <> [] -> all cls_dot rest -> stops cls_space rest ->
  exists e, re_search pat_leading (tok ++ w ++ rest) =
            Some (e, [(2%nat, rest); (1%nat, tok)]).
Proof.
  intros Ht Htd Hw Hws Hr Hrd Hrs. eexists. apply search_from_here.
  unfold pat_leading. simpl.
  apply rep_greedy_run; auto.
  { eapply stops_head; [exact Hw | exact Hws | apply space_not_digit_or_dot]. }
  { destruct tok; [congruence | simpl; lia]. }
  apply rep_greedy_run; auto.
  { destruct w; [congruence | simpl; lia]. }
  rewrite <- (app_nil_r rest) at 1.
  apply rep_greedy_run; auto.
  { exact I. }
  { destruct rest; [congruence | simpl; lia]. }
  unfold accept. simpl.
  replace (length tok + length w + length rest - (length tok + length w))%nat
    with (length rest) by lia.
  rewrite firstn_all, Nat.sub_0_r, firstn_app, firstn_all, Nat.sub_diag.
  simpl. rewrite app_nil_r. reflexivity.
Qed.

(** ** The two loops of [get_summary] *)

Lemma filter_loop_filter period today records : forall filtered,
  filter_loop period today records filtered =
  filtered ++ List.filter (retained period today) records.
Proof.
  induction records as [|record records IH]; intros filtered; simpl.
  - now rewrite app_nil_r.
  - rewrite IH. unfold retained, row_date.
    destruct (getitem record "Date") as [data_string|e]; simpl;
      [|reflexivity].
    destruct (strptime data_string) as [d|e]; simpl; [|reflexivity].
    destruct (in_period period today d); [|reflexivity].
    now rewrite <- app_assoc.
Qed.

Lemma totals_loop_app l1 l2 : forall ct t,
  totals_loop (l1 ++ l2) ct t =
  totals_loop l2 (totals_loop l1 ct t).1 (totals_loop l1 ct t).2.
Proof.
  induction l1 as [|record l1 IH]; intros ct t; simpl; [reflexivity|].
  match goal with |- context [let '(_, _) := ?b in _] => destruct b as [ct' t'] end.
  apply IH.
Qed.

Lemma totals_loop_skip record l ct t :
  entry record = None -> totals_loop (record :: l) ct t = totals_loop l ct t.
Proof.
  unfold entry, row_amount. intros H. simpl.
  destruct (getitem record "Amount") as [cell|e]; simpl in *; [|reflexivity].
  destruct (py_float cell) as [amount|e]; simpl in *; [|reflexivity].
  destruct (getitem record "Category") as [category|e]; simpl in *;
    [discriminate | reflexivity].
Qed.

Lemma totals_loop_entry record l ct t category amount :
  entry record = Some (category, amount) ->
  totals_loop (record :: l) ct t =
  totals_loop l
    (match dict_get ct category with
     | Some v => dict_set ct category (fadd v amount)
     | None => dict_set ct category amount
     end) (add_float t amount).
Proof.
  unfold entry, row_amount. intros H. simpl.
  destruct (getitem record "Amount") as [cell|e]; simpl in *; [|discriminate].
  destruct (py_float cell) as [a|e]; simpl in *; [|discriminate].
  destruct (getitem record "Category") as [c|e]; simpl in *; [|discriminate].
  inversion H; subst. reflexivity.
Qed.

Lemma entry_raises record :
  raises (row_amount record) -> entry record = None.
Proof. intros [e H]. unfold entry. now rewrite H. Qed.

Lemma retained_raises period today record :
  raises (row_date record) -> retained period today record = false.
Proof. intros [e H]. unfold retained. now rewrite H. Qed.

(** A record whose date or amount raises leaves both loops as they
    were. *)
Lemma summarize_skip records1 bad records2 period today :
  raises (row_date bad) \/ raises (row_amount bad) ->
  summarize (records1 ++ bad :: records2) period today =
  summarize (records1 ++ records2) period today.
Proof.
  intros H. unfold summarize. rewrite !filter_loop_filter. simpl.
  rewrite !List.filter_app. simpl.
  destruct (retained period today bad) eqn:Hr; [|reflexivity].
  destruct H as [H|H]; [now rewrite retained_raises in Hr|].
  rewrite !totals_loop_app. now rewrite totals_loop_skip by now apply entry_raises.
Qed.

(** ** The dictionary of totals *)

Lemma dict_get_set d k v : forall k',
  dict_get (dict_set d k v) k' = if decide (k = k') then Some v else dict_get d k'.
Proof.
  induction d as [|[k0 v0] d IH]; intros k'; simpl.
  - reflexivity.
  - destruct (decide (k0 = k)) as [->|Hne]; simpl.
    + destruct (decide (k = k')); reflexivity.
    + rewrite IH. destruct (decide (k0 = k')) as [->|]; [|reflexivity].
      destruct (decide (k = k')); [congruence | reflexivity].
Qed.

Lemma dict_set_keys d k v :
  map fst (dict_set d k v) =
  match dict_get d k with
  | Some _ => map fst d
  | None => map fst d ++ [k]
  end.
Proof.
  induction d as [|[k0 v0] d IH]; simpl; [reflexivity|].
  destruct (decide (k0 = k)) as [->|Hne]; simpl; [reflexivity|].
  rewrite IH. now destruct (dict_get d k).
Qed.

Lemma dict_get_None d k : dict_get d k = None <-> ~ In k (map fst d).
Proof.
  induction d as [|[k0 v0] d IH]; simpl; [tauto|].
  destruct (decide (k0 = k)) as [->|Hne]; [split; [discriminate | tauto]|].
  rewrite IH. tauto.
Qed.

Lemma NoDup_snoc (l : list str) k :
  List.NoDup l -> ~ In k l -> List.NoDup (l ++ [k]).
Proof.
  induction l as [|a l IH]; simpl; intros Hl Hk.
  - repeat constructor. intros [].
  - inversion Hl; subst. constructor.
    + rewrite in_app_iff. simpl. intuition congruence.
    + apply IH; tauto.
Qed.

Lemma dict_set_NoDup d k v :
  List.NoDup (map fst d) -> List.NoDup (map fst (dict_set d k v)).
Proof.
  intros H. rewrite dict_set_keys. destruct (dict_get d k) eqn:E; [assumption|].
  apply dict_get_None in E. now apply NoDup_snoc.
Qed.

(** What the second loop computes: the grand total is the sum of the
    contributed amounts in row order, and each category holds the sum of
    its own amounts in row order. *)
Lemma totals_loop_spec l : forall ct t,
  (totals_loop l ct t).2 = fold_left add_float (map snd (entries l)) t /\
  (List.NoDup (map fst ct) -> List.NoDup (map fst (totals_loop l ct t).1)) /\
  forall c, dict_get (totals_loop l ct t).1 c =
            match dict_get ct c with
            | Some v => Some (fold_left fadd (amounts_of c (entries l)) v)
            | None => sum_left (amounts_of c (entries l))
            end.
Proof.
  induction l as [|record l IH]; intros ct t.
  - simpl. split; [reflexivity|]. split; [auto|]. intros c.
    now destruct (dict_get ct c).
  - destruct (entry record) as [[category amount]|] eqn:He.
    + rewrite (totals_loop_entry _ _ _ _ _ _ He).
      set (ct' := match dict_get ct category with
                  | Some v => dict_set ct category (fadd v amount)
                  | None => dict_set ct category amount
                  end).
      destruct (IH ct' (add_float t amount)) as (Ht & Hn & Hc).
      assert (Ee : entries (record :: l) = (category, amount) :: entries l).
      { unfold entries. simpl. now rewrite He. }
      rewrite Ee. split; [exact Ht|]. split.
      * intros Hnd. apply Hn. unfold ct'.
        destruct (dict_get ct category); now apply dict_set_NoDup.
      * intros c. rewrite Hc. unfold amounts_of. simpl.
        assert (Eg : dict_get ct' c =
                     if decide (category = c)
                     then Some (match dict_get ct category with
                                | Some v => fadd v amount
                                | None => amount
                                end)
                     else dict_get ct c).
        { unfold ct'. destruct (dict_get ct category); apply dict_get_set. }
        rewrite Eg. destruct (decide (category = c)) as [->|Hne].
        -- rewrite bool_decide_eq_true_2 by reflexivity. simpl.
           now destruct (dict_get ct c).
        -- rewrite bool_decide_eq_false_2 by assumption. reflexivity.
    + rewrite (totals_loop_skip _ _ _ _ He).
      assert (Ee : entries (record :: l) = entries l).
      { unfold entries. simpl. now rewrite He. }
      rewrite Ee. apply IH.
Qed.

(** ** The period test *)

Lemma date_eqb_eq a b : date_eqb a b = true <-> a = b.
Proof.
  destruct a as [y m d], b as [y' m' d']. unfold date_eqb. simpl.
  rewrite !andb_true_iff, !Z.eqb_eq. split.
  - intros [[-> ->] ->]. reflexivity.
  - intros E. inversion E. auto.
Qed.

Lemma in_period_iff period today d :
  in_period period today d = true <->
  (period = "today" /\ d = today) \/
  (period = "week" /\ days_between today d <= 7) \/
  (period = "month" /\ days_between today d <= 30).
Proof.
  unfold in_period.
  destruct (date_eqb d today) eqn:Ed;
    [apply date_eqb_eq in Ed
    |assert (d <> today) by (intros E; apply date_eqb_eq in E; congruence)];
    destruct (Z.leb_spec (days_between today d) 7);
    destruct (Z.leb_spec (days_between today d) 30);
    repeat case_bool_decide; simpl;
    (split;
     [intros; try discriminate; tauto
     |intros [[? ?]|[[? ?]|[? ?]]]; subst;
      try reflexivity; try congruence; try lia;
      match goal with H : _ <> _ |- _ => now elim H end]).
Qed.

Lemma filter_loop_In period today records record :
  In record (filter_loop period today records []) <->
  In record records /\ retained period today record = true.
Proof. rewrite filter_loop_filter. simpl. apply filter_In. Qed.

(** ** Reading the ledger *)

Lemma get_summary_ledger_of records now period :
  get_summary (ledger_of records) now period =
  Returned (summarize records period now).
Proof. reflexivity. Qed.

Lemma get_summary_read_fails client now period :
  read_failure client -> get_summary client now period = Returned ([], Int 0).
Proof.
  intros H. unfold get_summary, get_or_create_sheet.
  destruct H as [|c e Ho|c e Ho Hc|c w e Ho Hr|c w e Ho Hc Hr]; simpl;
    rewrite ?Ho, ?Hc; simpl; rewrite ?Hr; reflexivity.
Qed.

(** ** [parse_expense] and surrounding whitespace *)

Lemma strip_idem s : strip (strip s) = strip s.
Proof. apply strip_with_idem. Qed.

Lemma parse_expense_strip text : parse_expense (strip text) = parse_expense text.
Proof. unfold parse_expense. now rewrite strip_idem. Qed.

Lemma strip_nonempty u : u <> [] -> ends cls_space u -> strip u <> [].
Proof.
  intros Hne He E. unfold strip in E.
  destruct (strip_with_split is_space u) as (l & r & Eu & Hl & Hr & _).
  rewrite E in Eu. simpl in Eu.
  destruct (ends_inv _ _ He) as [->|(u' & x & -> & Hx)]; [congruence|].
  assert (Ha : all cls_space (u' ++ [x])) by (rewrite Eu; apply all_app; now split).
  apply all_app in Ha as [_ Ha]. apply all_cons in Ha as [Ha _]. congruence.
Qed.

(** Without digits and points there is no numeric token. *)
Lemma no_digit_no_token s :
  all (fun c => negb (cls_digit_or_dot c)) s -> ~ has_numeric_token s.
Proof.
  intros Hs (l & t & r & -> & [Hne Ht] & _).
  destruct t as [|c t]; [congruence|].
  apply all_app in Hs as [_ Hs]. apply all_app in Hs as [Hs _].
  apply all_cons in Hs as [Hs _]. apply all_cons in Ht as [Ht _].
  rewrite Ht in Hs. discriminate.
Qed.

(** ** The commands of [webhook] *)

(** A message that ends in the digit 0 is no command. *)
Lemma not_a_command u :
  let incoming_msg := str_lower (u ++ "0") in
  str_in incoming_msg [list_ascii_of_string "summary";
                       list_ascii_of_string "today"] = false /\
  bool_decide (incoming_msg = "week") = false /\
  bool_decide (incoming_msg = "month") = false /\
  bool_decide (incoming_msg = "help") = false.
Proof.
  intros m.
  assert (E : m = map lower_char u ++ ["0"%char])
    by (unfold m, str_lower; rewrite map_app; reflexivity).
  clearbody m. subst m. set (v := map lower_char u). unfold str_in.
  assert (H : forall w c, c <> "0"%char -> v ++ ["0"%char] <> w ++ [c]).
  { intros w c Hc E. apply app_inj_tail in E as [_ E]. congruence. }
  simpl. rewrite orb_false_r, orb_false_iff.
  repeat split; apply bool_decide_eq_false_2.
  - apply (H "summar" "y"%char). discriminate.
  - apply (H "toda" "y"%char). discriminate.
  - apply (H "wee" "k"%char). discriminate.
  - apply (H "mont" "h"%char). discriminate.
  - apply (H "hel" "p"%char). discriminate.
Qed.

(** ** Sums that do not round *)

Lemma totals_loop_entries l : forall ct t,
  totals_loop l ct t = totals_entries (entries l) ct t.
Proof.
  induction l as [|record l IH]; intros ct t; [reflexivity|].
  unfold entries. simpl omap.
  destruct (entry record) as [[category amount]|] eqn:He.
  - rewrite (totals_loop_entry _ _ _ _ _ _ He). simpl. apply IH.
  - rewrite (totals_loop_skip _ _ _ _ He). apply IH.
Qed.

Lemma exact_add_value x y :
  exact_add x y = true ->
  (float_value (fadd x y) == float_value x + float_value y)%Q.
Proof.
  unfold exact_add. rewrite !andb_true_iff. intros [_ H].
  now apply Qeq_bool_iff.
Qed.

Lemma to_float_sum l : forall n,
  l <> [] -> to_float (fold_left add_float l n) = fold_left fadd l (to_float n).
Proof.
  induction l as [|a l IH]; intros n Hne; [congruence|]. simpl.
  destruct l as [|b l]; [reflexivity|]. now rewrite IH.
Qed.

Lemma exact_fold_value l : forall acc,
  exact_fold l acc = true ->
  (float_value (fold_left fadd l acc)
   == float_value acc + fold_right (fun a q => float_value a + q) 0 l)%Q.
Proof.
  induction l as [|a l IH]; intros acc H; simpl in *.
  - ring.
  - apply andb_true_iff in H as [Ha H]. rewrite (IH _ H).
    rewrite (exact_add_value _ _ Ha). ring.
Qed.

Lemma dict_sum_set_new d k v :
  dict_get d k = None ->
  (dict_sum (dict_set d k v) == dict_sum d + float_value v)%Q.
Proof.
  induction d as [|[k0 v0] d IH]; simpl; intros H.
  - unfold dict_sum. simpl. ring.
  - destruct (decide (k0 = k)); [discriminate|].
    unfold dict_sum in *. simpl. rewrite (IH H). ring.
Qed.

Lemma dict_sum_set_old d k v v' :
  dict_get d k = Some v ->
  (dict_sum (dict_set d k v') == dict_sum d - float_value v + float_value v')%Q.
Proof.
  induction d as [|[k0 v0] d IH]; simpl; intros H; [discriminate|].
  destruct (decide (k0 = k)).
  - inversion H; subst. unfold dict_sum. simpl. ring.
  - unfold dict_sum in *. simpl. rewrite (IH H). ring.
Qed.

(** While no addition rounds, the categories add up to the grand
    total. *)
Lemma totals_entries_exact es : forall ct t,
  exact_totals es ct t = true ->
  (dict_sum ct == float_value (to_float t))%Q ->
  (dict_sum (totals_entries es ct t).1
   == float_value (to_float (totals_entries es ct t).2))%Q.
Proof.
  induction es as [|[category amount] es IH]; intros ct t H Hinv; simpl in *.
  - exact Hinv.
  - apply andb_true_iff in H as [Ht H].
    destruct (dict_get ct category) as [v|] eqn:Eg.
    + apply andb_true_iff in H as [Hv H]. apply IH; [exact H|].
      rewrite (dict_sum_set_old _ _ _ _ Eg). simpl.
      rewrite (exact_add_value _ _ Hv), (exact_add_value _ _ Ht), Hinv. ring.
    + apply IH; [exact H|].
      rewrite (dict_sum_set_new _ _ _ Eg). simpl.
      rewrite (exact_add_value _ _ Ht), Hinv. ring.
Qed.

Lemma dict_sum_values d :
  (dict_sum d == fold_right (fun a q => float_value a + q) 0 (map snd d))%Q.
Proof.
  induction d as [|[k v] d IH]; simpl; [reflexivity|].
  unfold dict_sum in *. simpl. now rewrite IH.
Qed.

Lemma sum_amounts_exact d :
  exact_fold (map snd d) (float_of_Z 0) = true ->
  (float_value (to_float (sum_amounts d)) == dict_sum d)%Q.
Proof.
  intros H. unfold sum_amounts. destruct d as [|[k v] d]; [reflexivity|].
  rewrite to_float_sum by discriminate.
  rewrite (exact_fold_value _ _ H). rewrite dict_sum_values.
  change (float_value (float_of_Z 0)) with 0%Q. ring.
Qed.

(** * Further facts about the parser *)

(** Whatever the description, an input that ends in whitespace and a
    numeric token is resolved by the trailing-amount pattern; when
    [float] refuses the token, [parse_expense] raises. *)
Lemma parse_expense_token_raises description sep tok e :
  strip description <> [] -> sep <> [] -> all cls_space sep ->
  numeric_token tok -> py_float tok = Raised e ->
  parse_expense (description ++ sep ++ tok) = Raised e.
Proof.
  intros Hd Hsep Hs [Hne Hall] Hf.
  destruct (strip_form description sep tok) as (w & E' & Hw & Hws); auto.
  destruct (strip_with_split is_space description) as (_ & _ & _ & _ & _ & _ & He).
  rewrite (parse_expense_trailing _ _ _ _ E') by auto.
  now rewrite Hf.
Qed.

(** X20.  On two numeric tokens with whitespace between them both
    patterns match, and the first token is the description, the second
    the amount. *)
Lemma parse_expense_two_tokens tok1 w tok2 :
  numeric_token tok1 -> w <> [] -> all cls_space w -> numeric_token tok2 ->
  (exists m1 m2,
     re_search pat_trailing (strip (tok1 ++ w ++ tok2)) = Some m1 /\
     re_search pat_leading (strip (tok1 ++ w ++ tok2)) = Some m2) /\
  parse_expense (tok1 ++ w ++ tok2)
  = (amount ← py_float tok2; mret (Some tok1, Some amount)).
Proof.
  intros [Hn1 Ha1] Hw Hws [Hn2 Ha2].
  assert (Hd1 : all cls_dot tok1)
    by (eapply all_impl; [apply digit_or_dot_dot | assumption]).
  assert (Hd2 : all cls_dot tok2)
    by (eapply all_impl; [apply digit_or_dot_dot | assumption]).
  assert (He1 : ends cls_space tok1)
    by (eapply all_ends; [exact Ha1 | apply digit_or_dot_not_space]).
  assert (Hs1 : stops cls_space tok1)
    by (eapply all_stops; [exact Ha1 | apply digit_or_dot_not_space]).
  assert (Es : strip (tok1 ++ w ++ tok2) = tok1 ++ w ++ tok2).
  { apply strip_with_id.
    - now apply stops_app.
    - apply ends_app; [|apply ends_app; [assumption|]].
      + intros E. apply app_eq_nil in E as [_ E]. congruence.
      + eapply all_ends; [exact Ha2 | apply digit_or_dot_not_space]. }
  split.
  - rewrite Es.
    destruct (trailing_search 0 [] tok1 w tok2) as [e1 H1]; auto;
      [exact I|].
    destruct (leading_accepts tok1 w tok2) as [e2 H2]; auto.
    { eapply all_stops; [exact Ha2 | apply digit_or_dot_not_space]. }
    simpl in H1. eauto.
  - rewrite (parse_expense_trailing _ tok1 w tok2 Es) by auto.
    rewrite last_line_id by assumption.
    unfold strip. now rewrite strip_with_id.
Qed.

(** * The examples of the specification *)

Example parse_lunch :
  parse_expense "Lunch 15.50"
  = Returned (Some (list_ascii_of_string "Lunch"),
              Some (S754_finite false 8725724278030336 (-49))).
Proof. vm_compute. reflexivity. Qed.

Example value_15_50 :
  (float_value (S754_finite false 8725724278030336 (-49)) == 31 # 2)%Q.
Proof. vm_compute. reflexivity. Qed.

Example parse_leading :
  parse_expense "15 Lunch today"
  = Returned (Some (list_ascii_of_string "Lunch today"), Some (float_of_Z 15)).
Proof. vm_compute. reflexivity. Qed.

Example parse_leading_coffee :
  parse_expense "5 Coffee"
  = Returned (Some (list_ascii_of_string "Coffee"), Some (float_of_Z 5)).
Proof. vm_compute. reflexivity. Qed.

Example parse_currency_symbol : parse_expense "Lunch $5" = Returned (None, None).
Proof. vm_compute. reflexivity. Qed.

Example parse_negative : parse_expense "Refund -5" = Returned (None, None).
Proof. vm_compute. reflexivity. Qed.

Example summarize_today :
  summarize [row "2024-06-01" "10" "Food"; row "2024-05-30" "5" "Food"]
            "today" (Date 2024 6 1)
  = ([(list_ascii_of_string "Food", float_of_Z 10)], Float (float_of_Z 10)).
Proof. vm_compute. reflexivity. Qed.

Example summarize_bad_amount :
  summarize [row "2024-06-01" "abc" "Food"] "today" (Date 2024 6 1)
  = ([], Int 0).
Proof. vm_compute. reflexivity. Qed.

Example summarize_empty : summarize [] "today" (Date 2024 6 1) = ([], Int 0).
Proof. reflexivity. Qed.

Example summarize_case_sensitive :
  summarize [row "2024-06-01" "1" "food"; row "2024-06-01" "2" "Food"]
            "today" (Date 2024 6 1)
  = ([(list_ascii_of_string "food", float_of_Z 1);
      (list_ascii_of_string "Food", float_of_Z 2)], Float (float_of_Z 3)).
Proof. vm_compute. reflexivity. Qed.

Example summarize_week_bounds :
  map fst (summarize [row "2024-05-25" "1" "seven days ago";
                      row "2024-05-24" "1" "eight days ago";
                      row "2024-06-02" "1" "tomorrow"]
                     "week" (Date 2024 6 1)).1
  = [list_ascii_of_string "seven days ago"; list_ascii_of_string "tomorrow"].
Proof. vm_compute. reflexivity. Qed.

Example strptime_examples :
  strptime "2024-06-01" = Returned (Date 2024 6 1) /\
  strptime "2024-6-1" = Returned (Date 2024 6 1) /\
  strptime "2024-02-30" = Raised ValueError /\
  strptime "2024-06-01 " = Raised ValueError /\
  strptime "01/06/2024" = Raised ValueError /\
  toordinal (Date 2024 6 1) = 739038.
Proof. repeat split; vm_compute; reflexivity. Qed.

(** * The parser *)

(** C1.  The claim: when a numeric token is found in trailing or leading
    position but does not parse as a decimal, [parse] returns [Failed]
    rather than raising.  The code does not: [float] raises
    [ValueError] inside [parse_expense], which has no handler, on both
    inputs the claim names. *)
Theorem parse_expense_bad_token_raises :
  parse_expense "Coffee 1.2.3" = Raised ValueError /\
  parse_expense "1.2.3 Coffee" = Raised ValueError.
Proof. split; vm_compute; reflexivity. Qed.

(** C5, as stated, fails: a description of two lines is not returned
    whole, only its last line is. *)
Lemma parse_expense_two_line_description :
  let description : str := "a" ++ [newline] ++ "b" in
  let amount : str := "5" in
  strip description <> [] /\ decimal_token amount 5 0 /\
  parse_expense (description ++ " " ++ amount)
    = Returned (Some (list_ascii_of_string "b"), Some (float_of_Z 5)) /\
  parse_expense (description ++ " " ++ amount)
    <> Returned (Some (strip description), Some (float_of_Z 5)).
Proof.
  split; [vm_compute; discriminate|]. split.
  - apply (dt_int "5"); [discriminate|]. repeat constructor.
  - split; vm_compute; [reflexivity | discriminate].
Qed.

(** C5, amended.  For every input [description ++ sep ++ amount] where
    the description, once trimmed, is not empty and holds no line feed,
    [sep] is whitespace and [amount] is a decimal token (digits with an
    optional single point) denoting [D * 10^E], [parse_expense] returns
    the trimmed description and the float of the token: the binary64
    value nearest to [D * 10^E]. *)
Theorem parse_expense_description_amount description sep amount D E :
  strip description <> [] -> all cls_dot (strip description) ->
  sep <> [] -> all cls_space sep ->
  decimal_token amount D E ->
  parse_expense (description ++ sep ++ amount)
  = Returned (Some (strip description), Some (decimal_to_float false D E)).
Proof.
  intros Hd Hl Hsep Hs Ht.
  destruct (decimal_token_chars _ _ _ Ht) as [Hne Hall].
  destruct (strip_form description sep amount) as (w & E' & Hw & Hws); auto.
  destruct (strip_with_split is_space description) as (_ & _ & _ & _ & _ & _ & He).
  rewrite (parse_expense_trailing _ _ _ _ E') by auto.
  rewrite (py_float_decimal_token _ _ _ Ht). simpl.
  rewrite last_line_id by assumption. now rewrite strip_idem.
Qed.

Lemma parse_expense_description_amount_witness :
  parse_expense "Lunch 15.50"
  = Returned (Some (list_ascii_of_string "Lunch"),
              Some (S754_finite false 8725724278030336 (-49))).
Proof.
  apply (parse_expense_description_amount "Lunch" " " "15.50" 1550 (-2)).
  - vm_compute. discriminate.
  - vm_compute. repeat constructor.
  - discriminate.
  - repeat constructor.
  - apply (dt_frac "15" "50"); [discriminate | repeat constructor..].
Defined.

(** C6.  Whenever both patterns match the trimmed text, the result of
    [parse_expense] is the one the trailing-amount match gives, the
    leading-amount match is never looked at; and ["5 5"] is parsed as
    the description ["5"] with the amount 5. *)
Theorem parse_expense_trailing_first text m1 m2 :
  re_search pat_trailing (strip text) = Some m1 ->
  re_search pat_leading (strip text) = Some m2 ->
  parse_expense text
  = (amount ← py_float (group 2 m1.2);
     mret (Some (strip (group 1 m1.2)), Some amount)) /\
  parse_expense "5 5"
  = Returned (Some (list_ascii_of_string "5"), Some (float_of_Z 5)).
Proof.
  intros H1 _. split; [|vm_compute; reflexivity].
  unfold parse_expense. now rewrite H1.
Qed.

Lemma parse_expense_trailing_first_witness :
  parse_expense "1 2"
  = Returned (Some (list_ascii_of_string "1"), Some (float_of_Z 2)).
Proof.
  refine (eq_trans
    (proj1 (parse_expense_trailing_first "1 2"
              (3%nat, [(2%nat, list_ascii_of_string "2");
                       (1%nat, list_ascii_of_string "1")])
              (3%nat, [(2%nat, list_ascii_of_string "2");
                       (1%nat, list_ascii_of_string "1")]) _ _)) _);
    vm_compute; reflexivity.
Defined.

(** C7.  An input that is a single numeric token and nothing else (up
    to surrounding whitespace), and an input that holds no numeric token
    at all, are not understood: [parse_expense] returns [(None, None)].
    A numeric token is what the patterns take for one: a word of digits
    and points. *)
Theorem parse_expense_failed text :
  all cls_digit_or_dot (strip text) \/ ~ has_numeric_token text ->
  parse_expense text = Returned (None, None).
Proof.
  intros [H|H].
  - destruct (token_only_unmatched _ H). now apply parse_expense_unmatched.
  - destruct (no_token_unmatched _ H). now apply parse_expense_unmatched.
Qed.

Lemma parse_expense_failed_witness :
  parse_expense "12" = Returned (None, None) /\
  parse_expense "" = Returned (None, None) /\
  parse_expense "hello" = Returned (None, None) /\
  parse_expense "hello world" = Returned (None, None).
Proof.
  split; [|split; [|split]].
  - apply (parse_expense_failed "12"). left. vm_compute. repeat constructor.
  - apply (parse_expense_failed ""). left. vm_compute. constructor.
  - apply (parse_expense_failed "hello"). right. apply no_digit_no_token.
    repeat constructor.
  - apply (parse_expense_failed "hello world"). right. apply no_digit_no_token.
    repeat constructor.
Defined.

(** C10.  The parser accepts a zero amount: for every description that
    is not empty once trimmed, [description ++ " 0"] is parsed, with a
    description that is not empty and the amount 0; it is the test
    [if description and amount] of [webhook] that then answers "not
    understood". *)
Theorem parse_expense_zero_amount generate_content get_sheets_client now
    description :
  strip description <> [] ->
  exists d, d <> [] /\
    parse_expense (description ++ " 0") = Returned (Some d, Some (S754_zero false)) /\
    webhook generate_content get_sheets_client now (description ++ " 0")
    = Returned NotUnderstood.
Proof.
  intros Hd.
  destruct (strip_form description " " "0") as (w & E & Hw & Hws); auto;
    try discriminate; try (repeat constructor).
  destruct (strip_with_split is_space description) as (_ & _ & _ & _ & _ & _ & He).
  pose proof (parse_expense_trailing _ _ _ _ E Hd He Hw Hws) as Hp.
  destruct (last_line_ends _ Hd He) as [Hne Hle].
  exists (strip (last_line (strip description))).
  assert (Hs : strip (last_line (strip description)) <> [])
    by now apply strip_nonempty.
  assert (Hp' : parse_expense (description ++ " 0")
                = Returned (Some (strip (last_line (strip description))),
                            Some (S754_zero false))).
  { apply Hp; [discriminate | repeat constructor]. }
  split; [assumption|]. split; [assumption|].
  assert (Eu : str_lower (strip (description ++ " 0"))
               = str_lower ((strip description ++ w) ++ "0")).
  { f_equal. rewrite <- app_assoc. exact E. }
  unfold webhook. cbv zeta. rewrite Eu.
  destruct (not_a_command (strip description ++ w)) as (-> & -> & -> & ->).
  rewrite parse_expense_strip, Hp'. simpl.
  now rewrite andb_false_r.
Qed.

Lemma parse_expense_zero_amount_witness :
  exists d, d <> [] /\
    parse_expense "Coffee 0" = Returned (Some d, Some (S754_zero false)) /\
    webhook (fun _ => Raised OtherError) None (Date 2024 6 1) "Coffee 0"
    = Returned NotUnderstood.
Proof.
  apply (parse_expense_zero_amount (fun _ => Raised OtherError) None
           (Date 2024 6 1) "Coffee").
  vm_compute. discriminate.
Defined.

(** * The categorizer *)

(** C2, as stated, fails: when the classifier answers with an empty
    text, [categorize_expense] returns the empty string, not ["Other"]. *)
Lemma categorize_expense_empty_answer :
  let generate_content :=
    fun _ : str => Returned (Response (Returned (list_ascii_of_string ""))) in
  categorize_expense generate_content "Lunch" = Returned [] /\
  categorize_expense generate_content "Lunch"
    <> Returned (list_ascii_of_string "Other").
Proof. split; vm_compute; [reflexivity | discriminate]. Qed.

(** C2, amended.  [categorize_expense] never raises.  It returns
    ["Other"] when the classifier raises, in the call or when its
    answer's text is read; otherwise it returns the answer's text with
    the surrounding whitespace removed, whatever it is, the empty string
    included, with no check against the vocabulary. *)
Theorem categorize_expense_result generate_content description :
  categorize_expense generate_content description
  = Returned (match generate_content (prompt description) with
              | Returned (Response (Returned text)) => strip text
              | Returned (Response (Raised _)) => list_ascii_of_string "Other"
              | Raised _ => list_ascii_of_string "Other"
              end).
Proof.
  unfold categorize_expense.
  destruct (generate_content (prompt description)) as [[[text|e]]|e]; reflexivity.
Qed.

(** * The summary *)

(** C3.  A record whose date parses to [d] is kept by the first loop of
    the summary exactly when the period is ["today"] and [d] is today,
    or the period is ["week"] and [(today - d).days <= 7], or the
    period is ["month"] and [(today - d).days <= 30]; so a record dated
    after today is kept for the week and for the month. *)
Theorem summarize_retains records record d period today :
  In record records -> row_date record = Returned d ->
  (In record (filter_loop period today records []) <->
     (period = "today" /\ d = today) \/
     (period = "week" /\ days_between today d <= 7) \/
     (period = "month" /\ days_between today d <= 30)) /\
  (period = "week" \/ period = "month" ->
   toordinal today < toordinal d ->
   In record (filter_loop period today records [])).
Proof.
  intros Hin Hd.
  assert (Hiff : In record (filter_loop period today records []) <->
                 in_period period today d = true).
  { rewrite filter_loop_In. unfold retained. rewrite Hd. tauto. }
  split.
  - rewrite Hiff. apply in_period_iff.
  - intros Hp Hlt. apply Hiff, in_period_iff. unfold days_between.
    destruct Hp; [right; left | right; right]; split; auto; lia.
Qed.

Lemma summarize_retains_witness :
  In (row "2024-06-02" "7" "Food")
     (filter_loop "week" (Date 2024 6 1)
        [row "2024-05-24" "1" "Food"; row "2024-06-02" "7" "Food"] []).
Proof.
  apply (summarize_retains
           [row "2024-05-24" "1" "Food"; row "2024-06-02" "7" "Food"]
           (row "2024-06-02" "7" "Food") (Date 2024 6 2) "week" (Date 2024 6 1)).
  - right. left. reflexivity.
  - vm_compute. reflexivity.
  - left. reflexivity.
  - vm_compute. reflexivity.
Defined.

(** C4.  A record whose date does not parse, or whose amount does not
    parse, is passed over: the categories and the grand total are those
    of the records without it, and [get_summary] returns them without
    raising. *)
Theorem summarize_skips_malformed records1 bad records2 period today :
  raises (row_date bad) \/ raises (row_amount bad) ->
  summarize (records1 ++ bad :: records2) period today
  = summarize (records1 ++ records2) period today /\
  get_summary (ledger_of (records1 ++ bad :: records2)) today period
  = Returned (summarize (records1 ++ records2) period today).
Proof.
  intros H. rewrite get_summary_ledger_of.
  now rewrite (summarize_skip _ _ _ _ _ H).
Qed.

Lemma summarize_skips_malformed_witness :
  summarize [row "2024-06-01" "10" "Food"; row "2024-06-01" "abc" "Food";
             row "June 1st" "3" "Food"; row "2024-06-01" "5" "Bills"]
            "today" (Date 2024 6 1)
  = ([(list_ascii_of_string "Food", float_of_Z 10);
      (list_ascii_of_string "Bills", float_of_Z 5)], Float (float_of_Z 15)).
Proof.
  refine (eq_trans
    (proj1 (summarize_skips_malformed
              [row "2024-06-01" "10" "Food"] (row "2024-06-01" "abc" "Food")
              [row "June 1st" "3" "Food"; row "2024-06-01" "5" "Bills"]
              "today" (Date 2024 6 1) _)) _).
  - right. exists ValueError. vm_compute. reflexivity.
  - refine (eq_trans
      (proj1 (summarize_skips_malformed
                [row "2024-06-01" "10" "Food"] (row "June 1st" "3" "Food")
                [row "2024-06-01" "5" "Bills"]
                "today" (Date 2024 6 1) _)) _).
    + left. exists ValueError. vm_compute. reflexivity.
    + vm_compute. reflexivity.
Defined.

(** C8.  When reading the ledger fails (no client, opening or creating
    the sheet raises, or reading the records raises), [get_summary]
    does not raise: it returns the empty list of categories and the
    total 0, which is also what it returns for a ledger of which no
    record falls in the period. *)
Theorem get_summary_read_failure client now period :
  read_failure client ->
  get_summary client now period = Returned ([], Int 0) /\
  forall records,
    filter_loop period now records [] = [] ->
    get_summary (ledger_of records) now period = get_summary client now period.
Proof.
  intros H. rewrite (get_summary_read_fails _ _ _ H). split; [reflexivity|].
  intros records Hf. rewrite get_summary_ledger_of. unfold summarize.
  now rewrite Hf.
Qed.

Lemma get_summary_read_failure_witness :
  get_summary (Some (Client (Opened (Worksheet (Raised OtherError)
                                               (fun _ _ _ => Returned tt)))
                            (Raised OtherError)))
              (Date 2024 6 1) "week"
  = Returned ([], Int 0) /\
  get_summary (ledger_of [row "2024-01-01" "5" "Food"]) (Date 2024 6 1) "week"
  = Returned ([], Int 0).
Proof.
  destruct (get_summary_read_failure
              (Some (Client (Opened (Worksheet (Raised OtherError)
                                               (fun _ _ _ => Returned tt)))
                            (Raised OtherError)))
              (Date 2024 6 1) "week") as [H1 H2].
  - eapply rf_read_opened; reflexivity.
  - split; [exact H1|]. rewrite <- H1. apply H2. vm_compute. reflexivity.
Defined.

(** C9, as stated, fails: float addition rounds, so the grand total,
    added up in row order, need not be the sum of the totals by
    category.  Here the grand total is 1e16 and the categories hold
    1e16 and 2. *)
Lemma summarize_total_not_sum :
  let r := summarize [row "2024-06-01" "10000000000000000" "A";
                      row "2024-06-01" "1" "B"; row "2024-06-01" "1" "B"]
                     "today" (Date 2024 6 1) in
  r.1 = [(list_ascii_of_string "A", float_of_Z 10000000000000000);
         (list_ascii_of_string "B", float_of_Z 2)] /\
  r.2 = Float (float_of_Z 10000000000000000) /\
  sum_amounts r.1 = Float (float_of_Z 10000000000000002) /\
  sum_amounts (rev r.1) = Float (float_of_Z 10000000000000002) /\
  r.2 <> sum_amounts r.1 /\
  SFeqb (to_float r.2) (to_float (sum_amounts r.1)) = false.
Proof. repeat split; vm_compute; try reflexivity; discriminate. Qed.

(** C9, amended.  Every record the second loop takes up adds its amount
    once to the grand total and once to one category: the grand total
    is the sum, in row order and from 0, of the amounts taken up; the
    categories are distinct; and each category holds the sum, in row
    order, of the amounts taken up for it.  When none of these float
    additions rounds, nor those of summing the categories, the grand
    total is equal in value to the sum of the totals by category. *)
Theorem summarize_accumulates records period today :
  let es := entries (filter_loop period today records []) in
  let r := summarize records period today in
  r.2 = fold_left add_float (map snd es) (Int 0) /\
  List.NoDup (map fst r.1) /\
  (forall category, dict_get r.1 category = sum_left (amounts_of category es)) /\
  (exact_totals es [] (Int 0) = true ->
   exact_fold (map snd r.1) (float_of_Z 0) = true ->
   (float_value (to_float r.2) == float_value (to_float (sum_amounts r.1)))%Q).
Proof.
  intros es r. unfold r, summarize.
  destruct (totals_loop_spec (filter_loop period today records []) [] (Int 0))
    as (Ht & Hn & Hc).
  split; [exact Ht|]. split; [apply Hn; constructor|].
  split; [intros c; apply Hc|].
  intros He Hs. rewrite (sum_amounts_exact _ Hs).
  rewrite totals_loop_entries. symmetry.
  apply totals_entries_exact; [exact He | reflexivity].
Qed.

Lemma summarize_accumulates_witness :
  let r := summarize [row "2024-06-01" "15.50" "Food";
                      row "2024-06-01" "12" "Transport";
                      row "2024-06-01" "5.25" "Food"]
                     "today" (Date 2024 6 1) in
  (float_value (to_float r.2) == float_value (to_float (sum_amounts r.1)))%Q.
Proof.
  apply (summarize_accumulates
           [row "2024-06-01" "15.50" "Food";
            row "2024-06-01" "12" "Transport";
            row "2024-06-01" "5.25" "Food"]
           "today" (Date 2024 6 1)); vm_compute; reflexivity.
Defined.

(** * More on the summary *)

Lemma filter_none {A} (f : A -> bool) l :
  (forall x, In x l -> f x = false) -> List.filter f l = [].
Proof.
  induction l as [|a l IH]; intros H; simpl; [reflexivity|].
  rewrite (H a) by now left. apply IH. intros x Hx. apply H. now right.
Qed.

(** X1.  A period other than ['today'], ['week'] and ['month'] keeps no
    record: the summary is empty and the total is the integer 0. *)
Theorem summarize_unknown_period records (period : str) today :
  period <> "today" -> period <> "week" -> period <> "month" ->
  summarize records period today = ([], Int 0).
Proof.
  intros H1 H2 H3. unfold summarize. rewrite filter_loop_filter.
  rewrite filter_none; [reflexivity|].
  intros record _. unfold retained. destruct (row_date record) as [d|e]; [|reflexivity].
  destruct (in_period period today d) eqn:E; [|reflexivity].
  apply in_period_iff in E. tauto.
Qed.

Lemma summarize_unknown_period_witness :
  summarize [row "2024-06-01" "10" "Food"] "year" (Date 2024 6 1) = ([], Int 0).
Proof.
  apply summarize_unknown_period; discriminate.
Defined.

(** X2.  The periods are nested: a record kept for ['today'] is kept for
    ['week'], and a record kept for ['week'] is kept for ['month']. *)
Theorem periods_nested records today record :
  (In record (filter_loop "today" today records []) ->
   In record (filter_loop "week" today records [])) /\
  (In record (filter_loop "week" today records []) ->
   In record (filter_loop "month" today records [])).
Proof.
  rewrite !filter_loop_In. unfold retained.
  destruct (row_date record) as [d|e]; [|split; intros [_ ?]; discriminate].
  split; intros [Hin H]; (split; [assumption|]); apply in_period_iff;
    apply in_period_iff in H;
    destruct H as [[H Hd]|[[H Hd]|[H Hd]]]; try discriminate.
  - right. left. split; [reflexivity|]. subst d. unfold days_between. lia.
  - right. right. split; [reflexivity|]. lia.
Qed.

(** X3.  A record whose date parses but lies outside the period does not
    change the summary, wherever it stands among the records. *)
Theorem summarize_outside_period records1 record records2 period today d :
  row_date record = Returned d -> in_period period today d = false ->
  summarize (records1 ++ record :: records2) period today
  = summarize (records1 ++ records2) period today.
Proof.
  intros Hd Hp. unfold summarize. rewrite !filter_loop_filter. simpl.
  rewrite !List.filter_app. simpl. unfold retained at 2. now rewrite Hd, Hp.
Qed.

Lemma summarize_outside_period_witness :
  summarize [row "2024-06-01" "10" "Food"; row "2024-05-01" "99" "Bills"]
            "week" (Date 2024 6 1)
  = summarize [row "2024-06-01" "10" "Food"] "week" (Date 2024 6 1).
Proof.
  apply (summarize_outside_period [row "2024-06-01" "10" "Food"]
           (row "2024-05-01" "99" "Bills") [] "week" (Date 2024 6 1)
           (Date 2024 5 1)); vm_compute; reflexivity.
Defined.

Lemma mem_In x l : mem x l = true <-> In x l.
Proof.
  unfold mem. rewrite existsb_exists. split.
  - intros (y & Hy & E). apply bool_decide_eq_true in E. now subst.
  - intros H. exists x. split; [assumption|]. now apply bool_decide_eq_true.
Qed.

Lemma dict_get_mem d k :
  mem k (map fst d) = match dict_get d k with Some _ => true | None => false end.
Proof.
  destruct (dict_get d k) eqn:E.
  - destruct (mem k (map fst d)) eqn:Em; [reflexivity|]. exfalso.
    assert (H : ~ In k (map fst d)) by (intros H; apply mem_In in H; congruence).
    apply dict_get_None in H. congruence.
  - apply dict_get_None in E. destruct (mem k (map fst d)) eqn:Em; [|reflexivity].
    apply mem_In in Em. contradiction.
Qed.

Lemma filter_filter_absorb (keys : list str) c X :
  mem c keys = true ->
  List.filter (fun y => negb (mem y keys))
    (List.filter (fun y => negb (bool_decide (y = c))) X)
  = List.filter (fun y => negb (mem y keys)) X.
Proof.
  intros Hc. induction X as [|x X IH]; simpl; [reflexivity|].
  destruct (bool_decide_reflect (x = c)) as [->|Hne]; simpl.
  - rewrite Hc. simpl. exact IH.
  - destruct (mem x keys); simpl; now rewrite IH.
Qed.

Lemma mem_snoc y keys c :
  mem y (keys ++ [c]) = mem y keys || bool_decide (c = y).
Proof. unfold mem. rewrite existsb_app. simpl. now rewrite orb_false_r. Qed.

Lemma filter_snoc_keys (keys : list str) c X :
  List.filter (fun y => negb (mem y (keys ++ [c]))) X
  = List.filter (fun y => negb (mem y keys))
      (List.filter (fun y => negb (bool_decide (y = c))) X).
Proof.
  induction X as [|x X IH]; simpl; [reflexivity|].
  rewrite mem_snoc.
  destruct (bool_decide_reflect (x = c)) as [->|Hne]; simpl.
  - rewrite bool_decide_eq_true_2 by reflexivity. rewrite orb_true_r. simpl. exact IH.
  - rewrite bool_decide_eq_false_2 by congruence. rewrite orb_false_r.
    destruct (mem x keys); simpl; now rewrite IH.
Qed.

Lemma totals_entries_keys es : forall ct t,
  map fst (totals_entries es ct t).1
  = map fst ct ++ List.filter (fun y => negb (mem y (map fst ct)))
                              (first_occurrences (map fst es)).
Proof.
  induction es as [|[c a] es IH]; intros ct t; simpl.
  - now rewrite app_nil_r.
  - rewrite IH. rewrite (dict_get_mem ct c).
    destruct (dict_get ct c) as [v|] eqn:Eg.
    + rewrite dict_set_keys, Eg. simpl.
      rewrite filter_filter_absorb; [reflexivity|].
      rewrite dict_get_mem. now rewrite Eg.
    + rewrite dict_set_keys, Eg. simpl.
      rewrite <- app_assoc. simpl. now rewrite filter_snoc_keys.
Qed.

(** X4.  The categories of the summary are those of the records taken
    up, each once, in the order in which they first occur. *)
Theorem summarize_category_order records period today :
  map fst (summarize records period today).1
  = first_occurrences
      (map fst (entries (filter_loop period today records []))).
Proof.
  unfold summarize. rewrite totals_loop_entries, totals_entries_keys. simpl.
  induction (first_occurrences _) as [|x X IH]; simpl; [reflexivity|].
  now rewrite IH.
Qed.

Lemma fadd_same_number x y a : same_number x y -> same_number (fadd x a) (fadd y a).
Proof.
  intros [->|(s & s' & -> & ->)]; [now left|].
  destruct a as [sa| | |sa m ex]; simpl.
  - right. destruct s, s', sa; simpl; eauto.
  - now left.
  - now left.
  - now left.
Qed.

Lemma fold_fadd_same_number l : forall x y,
  same_number x y -> same_number (fold_left fadd l x) (fold_left fadd l y).
Proof.
  induction l as [|a l IH]; intros x y H; simpl; [assumption|].
  apply IH. now apply fadd_same_number.
Qed.

Lemma fold_add_float l : forall x,
  fold_left add_float l (Float x) = Float (fold_left fadd l x).
Proof. induction l as [|a l IH]; intros x; simpl; [reflexivity|]. apply IH. Qed.

Lemma totals_entries_one_category c es : forall v t,
  (forall e, In e es -> e.1 = c) ->
  totals_entries es [(c, v)] t
  = ([(c, fold_left fadd (map snd es) v)], fold_left add_float (map snd es) t).
Proof.
  induction es as [|[c' a] es IH]; intros v t H; simpl; [reflexivity|].
  assert (c' = c) as -> by (apply (H (c', a)); now left).
  destruct (decide (c = c)); [|congruence]. simpl.
  destruct (decide (c = c)); [|congruence].
  apply IH. intros x Hx. apply H. now right.
Qed.

(** X5.  When all the records taken up are of one category, the summary
    has that one category, and its total is the grand total, up to the
    sign of a zero. *)
Theorem summarize_one_category records (period : str) today c a es :
  entries (filter_loop period today records []) = (c, a) :: es ->
  (forall e, In e es -> e.1 = c) ->
  exists v t, summarize records period today = ([(c, v)], Float t) /\
              same_number v t.
Proof.
  intros He Hc. unfold summarize. rewrite totals_loop_entries, He. simpl.
  rewrite (totals_entries_one_category c es a _ Hc).
  change (add_float (Int 0) a) with (Float (fadd (float_of_Z 0) a)).
  rewrite fold_add_float.
  eexists _, _. split; [reflexivity|].
  apply fold_fadd_same_number. simpl.
  destruct a as [[|]| | |]; simpl; [right; eauto | now left..].
Qed.

Lemma summarize_one_category_witness :
  exists v t,
    summarize [row "2024-06-01" "0.1" "Food"; row "2024-06-01" "0.2" "Food";
               row "2024-06-01" "0.3" "Food"] "today" (Date 2024 6 1)
    = ([(list_ascii_of_string "Food", v)], Float t) /\ same_number v t.
Proof.
  eapply (summarize_one_category _ _ _ "Food").
  - vm_compute. reflexivity.
  - intros e [<-|[<-|[]]]; reflexivity.
Defined.

(** X18.  Appending a record of the period whose amount and category
    are read adds its amount to the grand total and to its category,
    and leaves the totals of the other categories as they were. *)
Theorem summarize_append records record (period : str) today c a :
  retained period today record = true -> entry record = Some (c, a) ->
  let old := summarize records period today in
  let new := summarize (records ++ [record]) period today in
  new.2 = add_float old.2 a /\
  dict_get new.1 c = Some (match dict_get old.1 c with
                           | Some v => fadd v a
                           | None => a
                           end) /\
  forall c', c' <> c -> dict_get new.1 c' = dict_get old.1 c'.
Proof.
  intros Hr He old new. unfold new, old, summarize.
  rewrite !filter_loop_filter. simpl. rewrite List.filter_app. simpl.
  rewrite Hr. rewrite totals_loop_app.
  destruct (totals_loop (List.filter (retained period today) records) [] (Int 0))
    as [ct t]. cbn [fst snd].
  rewrite (totals_loop_entry _ _ _ _ _ _ He). simpl.
  split; [reflexivity|].
  destruct (dict_get ct c) as [v|] eqn:Eg; simpl.
  - split.
    + rewrite dict_get_set. now destruct (decide (c = c)).
    + intros c' Hc. rewrite dict_get_set. destruct (decide (c = c')); congruence.
  - split.
    + rewrite dict_get_set. now destruct (decide (c = c)).
    + intros c' Hc. rewrite dict_get_set. destruct (decide (c = c')); congruence.
Qed.

Lemma summarize_append_witness :
  (summarize ([row "2024-06-01" "10" "Food"] ++ [row "2024-06-01" "2.5" "Food"])
             "today" (Date 2024 6 1)).2
  = add_float (summarize [row "2024-06-01" "10" "Food"] "today" (Date 2024 6 1)).2
              (S754_finite false 5629499534213120 (-51)).
Proof.
  apply (summarize_append [row "2024-06-01" "10" "Food"]
           (row "2024-06-01" "2.5" "Food") "today" (Date 2024 6 1) "Food"
           (S754_finite false 5629499534213120 (-51)));
    vm_compute; reflexivity.
Defined.


(** * The date written and the date read *)

Lemma code_digit_char k : 0 <= k <= 9 -> code (digit_char k) = 48 + k.
Proof.
  intros H. unfold code, digit_char. rewrite nat_ascii_embedding; lia.
Qed.

Lemma is_digit_digit_char k : 0 <= k <= 9 -> is_digit (digit_char k) = true.
Proof. intros H. unfold is_digit. rewrite code_digit_char by assumption. lia. Qed.

Lemma enum_range (P : Z -> Prop) lo n :
  (forall k, (k < n)%nat -> P (lo + Z.of_nat k)) ->
  forall x, lo <= x < lo + Z.of_nat n -> P x.
Proof.
  intros H x Hx. replace x with (lo + Z.of_nat (Z.to_nat (x - lo))) by lia.
  apply H. lia.
Qed.

Lemma pat_date_year y1 y2 y3 y4 t :
  is_digit y1 = true -> is_digit y2 = true ->
  is_digit y3 = true -> is_digit y4 = true ->
  re_match pat_date (y1 :: y2 :: y3 :: y4 :: t)
  = rmatch pat_date_rest 4 t [(1%nat, [y1; y2; y3; y4])] accept.
Proof.
  intros H1 H2 H3 H4. unfold re_match.
  change pat_date
    with (RSeq (RGrp 1 (RSeq digit (RSeq digit (RSeq digit digit)))) pat_date_rest).
  cbn [rmatch digit]. unfold cls_digit. now rewrite H1, H2, H3, H4.
Qed.

Lemma pat_date_rest_matches m d :
  1 <= m <= 12 -> 1 <= d <= 31 ->
  forall c,
    rmatch pat_date_rest 4 ("-" ++ pad2 m ++ "-" ++ pad2 d) c accept
    = Some (10%nat, (3%nat, pad2 d) :: (2%nat, pad2 m) :: c) /\
    int_of_group (pad2 m) = m /\ int_of_group (pad2 d) = d.
Proof.
  intros Hm Hd. revert d Hd.
  pattern m. apply (enum_range _ 1 12); [|lia].
  intros km Hkm d Hd.
  pattern d. apply (enum_range _ 1 31); [|lia].
  intros kd Hkd c.
  do 12 (destruct km as [|km];
         [do 31 (destruct kd as [|kd]; [vm_compute; auto|]); lia|]).
  lia.
Qed.

Lemma digits_value_4 y1 y2 y3 y4 :
  digits_value [y1; y2; y3; y4]
  = 1000 * (code y1 - 48) + 100 * (code y2 - 48) + 10 * (code y3 - 48)
    + (code y4 - 48).
Proof. unfold digits_value. simpl. lia. Qed.

Lemma int_of_group_pad4 y : 0 <= y <= 9999 -> int_of_group (pad4 y) = y.
Proof.
  intros H. unfold int_of_group, pad4.
  assert (H1 : 0 <= y / 1000 <= 9) by (Z.div_mod_to_equations; lia).
  assert (H2 : 0 <= y / 100 mod 10 <= 9) by (Z.div_mod_to_equations; lia).
  assert (H3 : 0 <= y / 10 mod 10 <= 9) by (Z.div_mod_to_equations; lia).
  assert (H4 : 0 <= y mod 10 <= 9) by (Z.div_mod_to_equations; lia).
  unfold strip. rewrite strip_with_id.
  - rewrite digits_value_4, !code_digit_char by assumption.
    Z.div_mod_to_equations. lia.
  - simpl. pose proof (is_digit_digit_char _ H1) as E. cls.
  - unfold ends. simpl. pose proof (is_digit_digit_char _ H4) as E. cls.
Qed.

Lemma days_in_month_le y m : days_in_month y m <= 31.
Proof.
  unfold days_in_month.
  repeat match goal with |- context [if ?b then _ else _] => destruct b end; lia.
Qed.

(** [strptime] reads back what [strftime] writes; whether the date
    exists is then decided by [date(y, m, d)]. *)
Lemma strptime_strftime y m d :
  1000 <= y <= 9999 -> 1 <= m <= 12 -> 1 <= d <= 31 ->
  strptime (strftime (Date y m d)) = make_date y m d.
Proof.
  intros Hy Hm Hd. unfold strptime, strftime. simpl year. simpl month. simpl day.
  assert (H1 : 0 <= y / 1000 <= 9) by (Z.div_mod_to_equations; lia).
  assert (H2 : 0 <= y / 100 mod 10 <= 9) by (Z.div_mod_to_equations; lia).
  assert (H3 : 0 <= y / 10 mod 10 <= 9) by (Z.div_mod_to_equations; lia).
  assert (H4 : 0 <= y mod 10 <= 9) by (Z.div_mod_to_equations; lia).
  change (pad4 y ++ "-" ++ pad2 m ++ "-" ++ pad2 d)
    with (digit_char (y / 1000) :: digit_char (y / 100 mod 10)
          :: digit_char (y / 10 mod 10) :: digit_char (y mod 10)
          :: (list_ascii_of_string "-" ++ pad2 m ++ "-" ++ pad2 d)).
  rewrite pat_date_year by now apply is_digit_digit_char.
  destruct (pat_date_rest_matches m d Hm Hd
              [(1%nat, [digit_char (y / 1000); digit_char (y / 100 mod 10);
                        digit_char (y / 10 mod 10); digit_char (y mod 10)])])
    as (-> & Em & Ed).
  cbn [length app list_ascii_of_string pad2 Nat.eqb negb group].
  rewrite Em, Ed. fold (pad4 y). rewrite int_of_group_pad4 by lia. reflexivity.
Qed.

Lemma make_date_valid y m d :
  1 <= y <= 9999 -> 1 <= m <= 12 -> 1 <= d <= days_in_month y m ->
  make_date y m d = Returned (Date y m d).
Proof.
  intros Hy Hm Hd. unfold make_date.
  replace ((1 <=? y) && (y <=? 9999) && (1 <=? m) && (m <=? 12) && (1 <=? d)
           && (d <=? days_in_month y m)) with true; [reflexivity|].
  symmetry. rewrite !andb_true_iff, !Z.leb_le. lia.
Qed.

Lemma strptime_strftime_valid today :
  1000 <= year today <= 9999 -> 1 <= month today <= 12 ->
  1 <= day today <= days_in_month (year today) (month today) ->
  strptime (strftime today) = Returned today.
Proof.
  destruct today as [y m d]. simpl. intros Hy Hm Hd.
  pose proof (days_in_month_le y m).
  rewrite strptime_strftime by lia. apply make_date_valid; lia.
Qed.

(** X6.  The date [save_expense] writes, [strftime('%Y-%m-%d')] of a
    calendar date with a year of four digits, is read back by the
    [strptime] of [get_summary] as the same date. *)
Theorem saved_date_read_back today :
  1000 <= year today <= 9999 -> 1 <= month today <= 12 ->
  1 <= day today <= days_in_month (year today) (month today) ->
  strptime (strftime today) = Returned today.
Proof. apply strptime_strftime_valid. Qed.

Lemma saved_date_read_back_witness :
  strptime "2024-02-29" = Returned (Date 2024 2 29).
Proof.
  apply (saved_date_read_back (Date 2024 2 29)); vm_compute; split; discriminate.
Defined.



(** * More on the parser *)

Lemma ends_app_inv p (u v : str) : v <> [] -> ends p (u ++ v) -> ends p v.
Proof.
  unfold ends. rewrite rev_app_distr. intros Hv H.
  destruct (rev v) as [|x r] eqn:E; [exact I | exact H].
Qed.

Lemma all_not_ends p (u : str) : u <> [] -> all p u -> ~ ends p u.
Proof.
  intros Hne Hu He. destruct (ends_inv _ _ He) as [->|(u' & x & -> & Hx)];
    [congruence|].
  apply all_app in Hu as [_ Hu]. apply all_cons in Hu as [Hu _]. congruence.
Qed.

Lemma all_not_stops p (u v : str) : u <> [] -> all p u -> ~ stops p (u ++ v).
Proof.
  intros Hne Hu Hs. destruct u as [|a u]; [congruence|].
  apply all_cons in Hu as [Hu _]. simpl in Hs. congruence.
Qed.

Lemma strip_with_all p u : all p u -> strip_with p u = [].
Proof.
  intros H. unfold strip_with, rstrip_with.
  rewrite <- (app_nil_r u). rewrite lstrip_with_app; auto. exact I.
Qed.

Lemma strip_with_empty p u : strip_with p u = [] -> all p u.
Proof.
  intros E. destruct (strip_with_split p u) as (l & r & Eu & Hl & Hr & _).
  rewrite E in Eu. simpl in Eu. rewrite Eu. apply all_app. now split.
Qed.

(** Whitespace around a string does not change what [strip] gives. *)
Lemma strip_with_around p l s r :
  all p l -> all p r -> strip_with p (l ++ s ++ r) = strip_with p s.
Proof.
  intros Hl Hr.
  destruct (strip_with_split p s) as (l' & r' & Es & Hl' & Hr' & Hb & He).
  destruct (strip_with p s) as [|b0 b] eqn:Eb.
  - apply strip_with_all. simpl in Es. rewrite Es.
    repeat (apply all_app; split); assumption.
  - rewrite Es at 1.
    replace (l ++ (l' ++ (b0 :: b) ++ r') ++ r)
      with ((l ++ l') ++ (b0 :: b) ++ (r' ++ r))
      by (rewrite <- !app_assoc; reflexivity).
    apply strip_with_app; auto; try (apply all_app; now split); discriminate.
Qed.

Lemma strip_stops_ends s : stops cls_space (strip s) /\ ends cls_space (strip s).
Proof.
  unfold strip. destruct (strip_with_split is_space s) as (_ & _ & _ & _ & _ & H).
  exact H.
Qed.

(** The trailing-amount pattern needs a digit or a point at the end. *)
Lemma trailing_needs_token_end s :
  ends cls_space s -> ends cls_digit_or_dot s -> re_search pat_trailing s = None.
Proof.
  intros Hs Hd. destruct (re_search pat_trailing s) as [m|] eqn:E; [|reflexivity].
  exfalso. apply re_search_trailing_sound in E
    as (pre & u1 & a & b & c0 & -> & _ & _ & _ & _ & Hb & Hbd & Hc).
  rewrite !app_assoc in Hs, Hd. destruct c0 as [|x c0].
  - rewrite app_nil_r in Hd. apply ends_app_inv in Hd; [|assumption].
    now apply (all_not_ends _ _ Hb Hbd).
  - apply ends_app_inv in Hs; [|discriminate].
    now apply (all_not_ends cls_space (x :: c0)).
Qed.

(** Where the trailing-amount pattern matches a trimmed text, the text
    is some characters that end in no whitespace, whitespace, and a
    token. *)
Lemma trailing_result s m :
  stops cls_space s -> ends cls_space s ->
  re_search pat_trailing s = Some m ->
  exists d w tok, s = d ++ w ++ tok /\ d <> [] /\ ends cls_space d /\
                  w <> [] /\ all cls_space w /\
                  tok <> [] /\ all cls_digit_or_dot tok.
Proof.
  intros Hs He E. apply re_search_trailing_sound in E
    as (pre & u1 & a & b & c0 & -> & Hu & _ & Ha & Has & Hb & Hbd & Hc).
  assert (c0 = []) as ->.
  { destruct c0 as [|x c0]; [reflexivity|]. exfalso.
    rewrite !app_assoc in He. apply ends_app_inv in He; [|discriminate].
    now apply (all_not_ends cls_space (x :: c0)). }
  rewrite app_nil_r in *.
  set (X := pre ++ u1 ++ a).
  destruct (lstrip_with_split cls_space (rev X)) as (sp & EX & Hsp & Hrest).
  set (rest := lstrip_with cls_space (rev X)) in *.
  assert (EX' : X = rev rest ++ rev sp).
  { rewrite <- rev_app_distr, <- EX. now rewrite rev_involutive. }
  exists (rev rest), (rev sp), b.
  split; [|split; [|split; [|split; [|split; [|split]]]]]; auto.
  - transitivity (X ++ b);
      [unfold X; now rewrite <- !app_assoc | rewrite EX'; now rewrite <- app_assoc].
  - intros Er. assert (Hall : all cls_space X).
    { rewrite EX', Er. simpl. now apply all_rev. }
    assert (Hne : pre ++ u1 <> []).
    { intros E0. apply app_eq_nil in E0 as [_ E0]. congruence. }
    unfold X in Hall. rewrite app_assoc in Hall. apply all_app in Hall as [Hall _].
    rewrite !app_assoc in Hs. rewrite <- (app_assoc (pre ++ u1)) in Hs.
    now apply (all_not_stops _ _ _ Hne Hall) in Hs.
  - unfold ends. now rewrite rev_involutive.
  - intros Esp. assert (sp = []) as ->.
    { apply (f_equal (@rev ascii)) in Esp. now rewrite rev_involutive in Esp. }
    simpl in EX. rewrite <- EX in Hrest. unfold X in Hrest.
    rewrite !rev_app_distr, <- app_assoc in Hrest.
    apply (all_not_stops cls_space (rev a)) in Hrest;
      [assumption | now apply rev_nonempty | now apply all_rev].
  - now apply all_rev.
Qed.

(** [re.search] with the leading-amount pattern on a token, whitespace,
    and a line that begins with no whitespace. *)
Lemma leading_search tok w line following :
  tok <> [] -> all cls_digit_or_dot tok -> w <> [] -> all cls_space w ->
  line <> [] -> all cls_dot line -> stops cls_space line ->
  stops cls_dot following ->
  exists e, re_search pat_leading (tok ++ w ++ line ++ following) =
            Some (e, [(2%nat, line); (1%nat, tok)]).
Proof.
  intros Ht Htd Hw Hws Hl Hld Hls Hf. eexists. apply search_from_here.
  unfold pat_leading. simpl.
  apply rep_greedy_run; auto.
  { eapply stops_head; [exact Hw | exact Hws | apply space_not_digit_or_dot]. }
  { destruct tok; [congruence | simpl; lia]. }
  apply rep_greedy_run; auto.
  { now apply stops_app. }
  { destruct w; [congruence | simpl; lia]. }
  apply rep_greedy_run; auto.
  { destruct line; [congruence | simpl; lia]. }
  unfold accept. simpl.
  replace (length tok + length w + length line - (length tok + length w))%nat
    with (length line) by lia.
  rewrite Nat.sub_0_r, !firstn_app, !firstn_all, !Nat.sub_diag.
  simpl. rewrite !app_nil_r. reflexivity.
Qed.

(** Where the leading-amount pattern matches a trimmed text, the text
    is a token, whitespace, a line that begins with no whitespace, and
    what follows that line. *)
Lemma leading_result s m :
  ends cls_space s -> re_search pat_leading s = Some m ->
  exists tok w line following,
    s = tok ++ w ++ line ++ following /\
    tok <> [] /\ all cls_digit_or_dot tok /\ w <> [] /\ all cls_space w /\
    line <> [] /\ all cls_dot line /\ stops cls_space line /\
    stops cls_dot following.
Proof.
  intros He E. apply re_search_leading_sound in E
    as (b & a & u & r & -> & Hb & Hbd & Ha & Has & Hu & Hud).
  destruct (lstrip_with_split cls_space (a ++ u ++ r)) as (sp & EZ & Hsp & Hrest).
  set (rest := lstrip_with cls_space (a ++ u ++ r)) in *.
  destruct (span_split cls_dot rest) as (Er & Hline & Hfol).
  assert (Hrne : rest <> []).
  { intros E0. rewrite EZ, E0, app_nil_r in He.
    assert (Hsne : sp <> []).
    { intros ->. simpl in EZ. rewrite E0 in EZ.
      destruct a; [congruence | discriminate]. }
    apply ends_app_inv in He; [|assumption].
    now apply (all_not_ends _ _ Hsne Hsp). }
  exists b, sp, (fst (span cls_dot rest)), (snd (span cls_dot rest)).
  assert (Hhead : exists x rest', rest = x :: rest' /\ cls_space x = false).
  { destruct rest as [|x rest']; [congruence|]. exists x, rest'. auto. }
  destruct Hhead as (x & rest' & Erest & Hx).
  assert (Eline : exists l', fst (span cls_dot rest) = x :: l').
  { rewrite Erest. simpl. rewrite (not_space_dot x Hx).
    destruct (span cls_dot rest') as [l' f']. now exists l'. }
  destruct Eline as (l' & Eline).
  split; [now rewrite <- Er, <- EZ|].
  split; [assumption|]. split; [assumption|]. split.
  { intros ->. simpl in EZ. rewrite <- EZ in Hrest.
    now apply (all_not_stops _ _ _ Ha Has) in Hrest. }
  split; [assumption|]. split; [rewrite Eline; discriminate|].
  split; [assumption|]. split; [rewrite Eline; exact Hx | assumption].
Qed.

(** ** [float] on the tokens of the patterns *)

Lemma lower_digit_or_dot c : cls_digit_or_dot c = true -> lower c = c.
Proof.
  intros H. unfold lower.
  replace ((65 <=? code c) && (code c <=? 90)) with false; [reflexivity|].
  symmetry. cls.
Qed.

Lemma parse_inf_or_nan_token tok :
  tok <> [] -> all cls_digit_or_dot tok -> parse_inf_or_nan tok = None.
Proof.
  intros Hne Hall. unfold parse_inf_or_nan. rewrite take_sign_none.
  2:{ eapply all_stops; [exact Hall|]. intros c Hc. cls. }
  assert (E : map lower tok = tok).
  { clear Hne. induction tok as [|c tok IH]; [reflexivity|].
    apply all_cons in Hall as [Hc Hall]. simpl.
    now rewrite lower_digit_or_dot, IH. }
  rewrite E. destruct tok as [|c tok]; [congruence|].
  apply all_cons in Hall as [Hc _].
  destruct (decide _) as [[H|H]|_]; [inversion H; subst; discriminate..|].
  destruct (decide _) as [H|_]; [inversion H; subst; discriminate|reflexivity].
Qed.

Lemma digit_or_dot_cases c :
  cls_digit_or_dot c = true -> is_digit c = true \/ (is_digit c = false /\ code c = 46).
Proof. intros H. destruct (is_digit c) eqn:E; [now left|right]. cls. Qed.

Lemma code_inj c c' : code c = code c' -> c = c'.
Proof.
  unfold code. intros H. apply Nat2Z.inj in H.
  rewrite <- (ascii_nat_embedding c), <- (ascii_nat_embedding c'). now rewrite H.
Qed.

(** A token of digits and points that [float] accepts is a decimal
    token. *)
Lemma py_float_token_decimal tok v :
  tok <> [] -> all cls_digit_or_dot tok -> py_float tok = Returned v ->
  exists D E, decimal_token tok D E /\ v = decimal_to_float false D E.
Proof.
  intros Hne Hall. unfold py_float. rewrite strip_with_id.
  2:{ eapply all_stops; [exact Hall|]. intros c Hc. cls. }
  2:{ eapply all_ends; [exact Hall|]. intros c Hc. cls. }
  rewrite drop_underscores_id by auto.
  rewrite parse_inf_or_nan_token by assumption.
  unfold parse_decimal. rewrite take_sign_none.
  2:{ eapply all_stops; [exact Hall|]. intros c Hc. cls. }
  destruct (span_split is_digit tok) as (Etok & Hip & Hs2).
  destruct (span is_digit tok) as [ip s2]. simpl in *.
  destruct s2 as [|c r].
  - rewrite app_nil_r in *. subst ip. destruct tok as [|t0 tok]; [congruence|].
    simpl. intros H. inversion H; subst.
    exists (digits_value (t0 :: tok)), 0. split; [|reflexivity].
    now apply dt_int.
  - assert (Hc : code c = 46).
    { rewrite Etok in Hall. apply all_app in Hall as [_ Hall].
      apply all_cons in Hall as [Hc _].
      destruct (digit_or_dot_cases c Hc) as [Hd|[_ ?]]; [|assumption].
      simpl in Hs2. congruence. }
    assert (c = "."%char) as -> by (apply code_inj; rewrite Hc; reflexivity).
    change (code "."%char =? 46) with true. cbv iota.
    destruct (span_split is_digit r) as (Er & Hfp & Hs3).
    destruct (span is_digit r) as [fp s3]. simpl in *.
    destruct (ip ++ fp) as [|d0 ds] eqn:Eds; [discriminate|].
    destruct s3 as [|c3 s3'].
    2:{ assert (H3 : cls_digit_or_dot c3 = true).
        { rewrite Etok, Er in Hall. apply all_app in Hall as [_ Hall].
          apply all_cons in Hall as [_ Hall]. apply all_app in Hall as [_ Hall].
          now apply all_cons in Hall as [? _]. }
        simpl in Hs3. destruct (digit_or_dot_cases c3 H3) as [Hd|[_ H46]];
          [congruence|].
        assert (c3 = "."%char) as -> by (apply code_inj; rewrite H46; reflexivity).
        simpl. discriminate. }
    rewrite app_nil_r in Er. subst r. simpl.
    intros H. inversion H; subst.
    exists (digits_value (d0 :: ds)), (- Z.of_nat (length fp)).
    split; [|reflexivity]. rewrite <- Eds.
    apply (dt_frac ip fp); [rewrite Eds; discriminate | assumption..].
Qed.

(** ** Rounding keeps the sign *)

Lemma shr_1_nonneg mrs : 0 <= shr_m mrs -> 0 <= shr_m (shr_1 mrs).
Proof.
  destruct mrs as [m r s]. simpl.
  destruct m as [|p|p]; simpl; try destruct p; simpl; lia.
Qed.

Lemma iter_pos_inv {A} (f : A -> A) (P : A -> Prop) :
  (forall x, P x -> P (f x)) -> forall p x, P x -> P (SpecFloat.iter_pos f p x).
Proof.
  intros Hf. induction p as [p IH|p IH|]; intros x Hx; simpl; auto.
Qed.

Lemma shr_fexp_nonneg m e l :
  0 <= m -> 0 <= shr_m (shr_fexp 53 1024 m e l).1.
Proof.
  intros Hm. unfold shr_fexp, shr.
  assert (H0 : 0 <= shr_m (shr_record_of_loc m l))
    by (destruct l as [|[| |]]; exact Hm).
  destruct (_ - e)%Z; simpl; auto.
  apply (iter_pos_inv shr_1 (fun mrs => 0 <= shr_m mrs)); auto using shr_1_nonneg.
Qed.

Lemma round_nearest_even_nonneg m l : 0 <= m -> 0 <= round_nearest_even m l.
Proof.
  intros Hm. destruct l as [|[| |]]; simpl; try destruct (Z.even m); lia.
Qed.

Lemma binary_round_aux_nonneg m e l :
  0 <= m -> is_nonneg (binary_round_aux 53 1024 false m e l) = true.
Proof.
  intros Hm. unfold binary_round_aux.
  pose proof (shr_fexp_nonneg m e l Hm) as H1.
  destruct (shr_fexp 53 1024 m e l) as [mrs' e']. simpl in H1.
  pose proof (shr_fexp_nonneg _ e' loc_Exact
                (round_nearest_even_nonneg _ (loc_of_shr_record mrs') H1)) as H2.
  destruct (shr_fexp 53 1024 _ e' loc_Exact) as [mrs'' e'']. simpl in H2.
  destruct (shr_m mrs'') as [|p|p]; [reflexivity | | lia].
  destruct (e'' <=? 1024 - 53); reflexivity.
Qed.

Lemma decimal_to_float_nonneg D E : is_nonneg (decimal_to_float false D E) = true.
Proof.
  unfold decimal_to_float. destruct D as [|m|m]; [reflexivity| |reflexivity].
  destruct (0 <=? E) eqn:HE.
  - unfold binary_round. destruct (shl_align _ _ _) as [mz ez].
    apply binary_round_aux_nonneg. lia.
  - unfold SFdiv_core_binary.
    set (m' := match _ with Zpos _ => _ | Z0 => _ | Zneg _ => _ end).
    assert (Hm' : 0 <= m').
    { unfold m'. destruct (_ - _ - _)%Z; try lia. apply Z.shiftl_nonneg. lia. }
    assert (Hq : 0 <= (Z.div_eucl m' (10 ^ (- E))).1).
    { change ((Z.div_eucl m' (10 ^ (- E))).1) with (m' / 10 ^ (- E)).
      apply Z.div_pos; [assumption|]. apply Z.pow_pos_nonneg; lia. }
    destruct (Z.div_eucl m' (10 ^ (- E))) as [q r]. simpl in Hq.
    now apply binary_round_aux_nonneg.
Qed.

(** ** The results of [parse_expense] *)

(** X8.  Whatever the description, an input that ends in whitespace and
    a decimal token is resolved by the trailing-amount pattern; of a
    description of several lines only the text after the last line feed
    is returned. *)
Theorem parse_expense_last_line description sep amount D E :
  strip description <> [] -> sep <> [] -> all cls_space sep ->
  decimal_token amount D E ->
  parse_expense (description ++ sep ++ amount)
  = Returned (Some (strip (last_line (strip description))),
              Some (decimal_to_float false D E)).
Proof.
  intros Hd Hsep Hs Ht.
  destruct (decimal_token_chars _ _ _ Ht) as [Hne Hall].
  destruct (strip_form description sep amount) as (w & E' & Hw & Hws); auto.
  destruct (strip_stops_ends description) as [_ He].
  rewrite (parse_expense_trailing _ _ _ _ E') by auto.
  now rewrite (py_float_decimal_token _ _ _ Ht).
Qed.

Lemma parse_expense_last_line_witness :
  parse_expense ("Taxi to airport" ++ [newline] ++ "and back 40")
  = Returned (Some (list_ascii_of_string "and back"), Some (float_of_Z 40)).
Proof.
  refine (eq_trans
    (parse_expense_last_line ("Taxi to airport" ++ [newline] ++ "and back")
       " " "40" 40 0 _ _ _ _) _).
  - vm_compute. discriminate.
  - discriminate.
  - repeat constructor.
  - apply (dt_int "40"); [discriminate | repeat constructor].
  - vm_compute. reflexivity.
Defined.

(** X9.  On an input that ends in whitespace and a token of digits and
    points, [parse_expense] raises [ValueError] exactly when the token
    is no decimal token: it has no digit, or more than one point. *)
Theorem parse_expense_raises_iff description sep tok :
  strip description <> [] -> sep <> [] -> all cls_space sep ->
  numeric_token tok ->
  (parse_expense (description ++ sep ++ tok) = Raised ValueError
   <-> ~ exists D E, decimal_token tok D E) /\
  ((exists e, parse_expense (description ++ sep ++ tok) = Raised e)
   \/ exists d a, parse_expense (description ++ sep ++ tok)
                  = Returned (Some d, Some a)).
Proof.
  intros Hd Hsep Hs [Hne Hall].
  destruct (strip_form description sep tok) as (w & E' & Hw & Hws); auto.
  destruct (strip_stops_ends description) as [_ He].
  rewrite (parse_expense_trailing _ _ _ _ E') by auto.
  destruct (py_float tok) as [v|e] eqn:Ef; simpl.
  - split; [|right; eauto]. split; [discriminate|].
    intros Hno. exfalso. apply Hno.
    destruct (py_float_token_decimal tok v Hne Hall Ef) as (D & E & Ht & _).
    eauto.
  - assert (e = ValueError) as ->.
    { unfold py_float in Ef.
      repeat match type of Ef with
             | match ?x with _ => _ end = _ => destruct x
             | (let (_, _) := ?x in _) = _ => destruct x
             end; congruence. }
    split; [|left; eauto]. split; [|reflexivity].
    intros _ (D & E & Ht). rewrite (py_float_decimal_token _ _ _ Ht) in Ef.
    discriminate.
Qed.

Lemma parse_expense_raises_iff_witness :
  parse_expense "Coffee 5..0" = Raised ValueError.
Proof.
  apply (parse_expense_raises_iff "Coffee" " " "5..0").
  - vm_compute. discriminate.
  - discriminate.
  - repeat constructor.
  - split; [discriminate | repeat constructor].
  - intros (D & E & H). inversion H as [ip Hn Hi Eq|ip fp Hn Hi Hf Eq]; subst.
    + simpl in Hi. apply all_cons in Hi as [_ Hi].
      apply all_cons in Hi as [Hi _]. discriminate.
    + assert (Hcount : length (List.filter (fun c => negb (is_digit c)) (ip ++ "."%char :: fp)) = 1%nat).
      { rewrite List.filter_app. simpl.
        assert (Hz : forall u, all is_digit u ->
                     List.filter (fun c => negb (is_digit c)) u = []).
        { intros u Hu. apply filter_none. intros x Hx.
          unfold all in Hu. rewrite List.Forall_forall in Hu.
          now rewrite (Hu x Hx). }
        rewrite (Hz ip Hi), (Hz fp Hf). reflexivity. }
      rewrite Eq in Hcount. vm_compute in Hcount. discriminate.
Defined.

(** X10.  An input that begins with a decimal token and whitespace, and
    whose description does not end in a digit or a point, is resolved by
    the leading-amount pattern; of a description of several lines only
    the first line is returned. *)
Theorem parse_expense_leading amount sep description D E :
  decimal_token amount D E -> sep <> [] -> all cls_space sep ->
  strip description <> [] -> ends cls_digit_or_dot (strip description) ->
  parse_expense (amount ++ sep ++ description)
  = Returned (Some (strip (first_line (strip description))),
              Some (decimal_to_float false D E)).
Proof.
  intros Ht Hsep Hs Hd Hend.
  destruct (decimal_token_chars _ _ _ Ht) as [Hne Hall].
  destruct (strip_stops_ends description) as [Hb He].
  unfold strip in *.
  destruct (strip_with_split is_space description) as (l & r & Ed & Hl & Hr & _).
  set (sd := strip_with is_space description) in *.
  assert (Es : strip_with is_space (amount ++ sep ++ description)
               = amount ++ (sep ++ l) ++ sd).
  { rewrite Ed.
    replace (amount ++ sep ++ l ++ sd ++ r)
      with ([] ++ (amount ++ (sep ++ l) ++ sd) ++ r)
      by (simpl; rewrite <- !app_assoc; reflexivity).
    apply strip_with_app; auto.
    - eapply stops_head; [exact Hne | exact Hall | apply digit_or_dot_not_space].
    - apply ends_app; [|apply ends_app]; auto.
      intros E0. apply app_eq_nil in E0 as [_ E0]. congruence.
    - intros E0. apply app_eq_nil in E0 as [E0 _]. congruence. }
  destruct (span_split cls_dot sd) as (Esd & Hline & Hfol).
  assert (Hhead : exists x l', fst (span cls_dot sd) = x :: l' /\ cls_space x = false).
  { destruct sd as [|x sd']; [congruence|]. simpl in Hb. simpl.
    rewrite (not_space_dot x Hb). destruct (span cls_dot sd') as [l' f'].
    now exists x, l'. }
  destruct Hhead as (x & l' & Eline & Hx).
  destruct (leading_search amount (sep ++ l) (fst (span cls_dot sd))
              (snd (span cls_dot sd))) as [e Hlead]; auto.
  { intros E0. apply app_eq_nil in E0 as [E0 _]. congruence. }
  { apply all_app. now split. }
  { rewrite Eline. discriminate. }
  { rewrite Eline. exact Hx. }
  rewrite <- Esd in Hlead.
  unfold parse_expense, strip. rewrite Es.
  rewrite trailing_needs_token_end.
  - rewrite Hlead. simpl. rewrite (py_float_decimal_token _ _ _ Ht). reflexivity.
  - apply ends_app; [|apply ends_app]; auto.
    intros E0. apply app_eq_nil in E0 as [_ E0]. congruence.
  - apply ends_app; [|apply ends_app]; auto.
    intros E0. apply app_eq_nil in E0 as [_ E0]. congruence.
Qed.

Lemma parse_expense_leading_witness :
  parse_expense "15 Lunch today"
  = Returned (Some (list_ascii_of_string "Lunch today"), Some (float_of_Z 15)).
Proof.
  refine (eq_trans
    (parse_expense_leading "15" " " "Lunch today" 15 0 _ _ _ _ _) _).
  - apply (dt_int "15"); [discriminate | repeat constructor].
  - discriminate.
  - repeat constructor.
  - vm_compute. discriminate.
  - vm_compute. reflexivity.
  - vm_compute. reflexivity.
Defined.

Lemma strip_nonempty_head u : u <> [] -> stops cls_space u -> strip u <> [].
Proof.
  intros Hne Hs E. apply strip_with_empty in E.
  rewrite <- (app_nil_r u) in Hs. now apply (all_not_stops _ _ _ Hne E) in Hs.
Qed.

Lemma parse_expense_cases text description amount :
  parse_expense text = Returned (description, amount) ->
  (description = None /\ amount = None) \/
  exists d a, description = Some d /\ amount = Some a /\
              d <> [] /\ strip d = d /\ is_nonneg a = true.
Proof.
  intros H. destruct (strip_stops_ends text) as [Hb He].
  destruct (re_search pat_trailing (strip text)) as [m|] eqn:Et.
  - destruct (trailing_result _ _ Hb He Et)
      as (d0 & w & tok & Es & Hd0 & Hde & Hw & Hws & Ht & Htd).
    rewrite (parse_expense_trailing _ _ _ _ Es) in H by assumption.
    destruct (py_float tok) as [v|e] eqn:Ef; simpl in H; [|discriminate].
    inversion H; subst. right. eexists _, _.
    split; [reflexivity|]. split; [reflexivity|].
    destruct (last_line_ends _ Hd0 Hde) as [Hne Hle].
    split; [now apply strip_nonempty|]. split; [apply strip_idem|].
    destruct (py_float_token_decimal _ _ Ht Htd Ef) as (D & E & _ & ->).
    apply decimal_to_float_nonneg.
  - unfold parse_expense in H. rewrite Et in H.
    destruct (re_search pat_leading (strip text)) as [m|] eqn:El.
    + destruct (leading_result _ _ He El)
        as (tok & w & line & fol & Es & Ht & Htd & Hw & Hws & Hl & Hld & Hls & Hf).
      destruct (leading_search tok w line fol) as [e Hlead]; auto.
      rewrite Es, Hlead in El. inversion El; subst m. simpl in H.
      destruct (py_float tok) as [v|e'] eqn:Ef; simpl in H; [|discriminate].
      inversion H; subst. right. eexists _, _.
      split; [reflexivity|]. split; [reflexivity|].
      split; [now apply strip_nonempty_head|]. split; [apply strip_idem|].
      destruct (py_float_token_decimal _ _ Ht Htd Ef) as (D & E & _ & ->).
      apply decimal_to_float_nonneg.
    + inversion H. now left.
Qed.

(** X11.  What [parse_expense] returns is either [(None, None)] or a
    description with an amount; the description is then not empty and
    has no whitespace around it, and the amount is neither negative nor
    a NaN. *)
Theorem parse_expense_result text description amount :
  parse_expense text = Returned (description, amount) ->
  (description = None /\ amount = None) \/
  exists d a, description = Some d /\ amount = Some a /\
              d <> [] /\ strip d = d /\ is_nonneg a = true.
Proof. apply parse_expense_cases. Qed.

Lemma parse_expense_result_witness :
  exists d a, Some (list_ascii_of_string "Lunch") = Some d /\
              Some (S754_finite false 8725724278030336 (-49)) = Some a /\
              d <> [] /\ strip d = d /\ is_nonneg a = true.
Proof.
  destruct (parse_expense_result "  Lunch   15.50 "
              (Some (list_ascii_of_string "Lunch"))
              (Some (S754_finite false 8725724278030336 (-49))))
    as [[H _]|H].
  - vm_compute. reflexivity.
  - discriminate.
  - exact H.
Defined.

(** X12.  Whitespace before and after the text does not change what
    [parse_expense] gives. *)
Theorem parse_expense_whitespace l text r :
  all cls_space l -> all cls_space r ->
  parse_expense (l ++ text ++ r) = parse_expense text.
Proof.
  intros Hl Hr. unfold parse_expense, strip.
  now rewrite (strip_with_around is_space l text r Hl Hr).
Qed.

Lemma parse_expense_whitespace_witness :
  parse_expense ("  " ++ "Uber 12" ++ [newline]) = parse_expense "Uber 12".
Proof.
  apply parse_expense_whitespace; repeat constructor.
Defined.

Lemma parse_expense_two_tokens_witness :
  parse_expense "2024 15.5"
  = Returned (Some (list_ascii_of_string "2024"),
              Some (S754_finite false 8725724278030336 (-49))).
Proof.
  refine (eq_trans (proj2 (parse_expense_two_tokens "2024" " " "15.5" _ _ _ _)) _).
  - split; [discriminate | repeat constructor].
  - discriminate.
  - repeat constructor.
  - split; [discriminate | repeat constructor].
  - vm_compute. reflexivity.
Defined.

(** * More on the classifier and on [webhook] *)

Lemma get_summary_returns client now period :
  exists r, get_summary client now period = Returned r.
Proof.
  unfold get_summary, get_or_create_sheet.
  destruct client as [c|]; simpl; [|eauto].
  destruct (open_sheet c) as [w| |e]; simpl; [| |eauto].
  - destruct (get_all_records w); simpl; eauto.
  - destruct (create_sheet c) as [w|e]; simpl; [|eauto].
    destruct (get_all_records w); simpl; eauto.
Qed.

Lemma categorize_expense_returns generate_content description :
  exists category,
    categorize_expense generate_content description = Returned category /\
    strip category = category.
Proof.
  unfold categorize_expense.
  destruct (generate_content (prompt description)) as [[[text|e]]|e]; simpl.
  - eexists. split; [reflexivity | apply strip_idem].
  - eexists. split; [reflexivity | vm_compute; reflexivity].
  - eexists. split; [reflexivity | vm_compute; reflexivity].
Qed.

(** X13.  [categorize_expense] never raises, and the category it returns
    has no whitespace around it. *)
Theorem categorize_expense_stripped generate_content description :
  exists category,
    categorize_expense generate_content description = Returned category /\
    strip category = category.
Proof. apply categorize_expense_returns. Qed.

Lemma webhook_not_command generate_content get_sheets_client now body :
  is_command (str_lower (strip body)) = false ->
  webhook generate_content get_sheets_client now body
  = ('(description, amount) ← parse_expense body;
     if truthy_str description && truthy_float amount then
       match description, amount with
       | Some description, Some amount =>
           match
             category ← categorize_expense generate_content description;
             let success :=
               save_expense get_sheets_client description amount category in
             mret (if success then Saved description amount category
                   else SaveFailed)
           with
           | Returned r => mret r
           | Raised e => mret (ErrorReply e)
           end
       | _, _ => mret NotUnderstood
       end
     else mret NotUnderstood).
Proof.
  unfold is_command, webhook. cbv zeta. rewrite !orb_false_iff.
  intros [[[-> ->] ->] ->]. now rewrite parse_expense_strip.
Qed.

Lemma webhook_command generate_content get_sheets_client now body :
  is_command (str_lower (strip body)) = true ->
  exists r, webhook generate_content get_sheets_client now body = Returned r /\
            (r = Help \/ exists period results total, r = Summary period results total).
Proof.
  unfold is_command, webhook. cbv zeta. intros H.
  destruct (str_in _ _).
  { destruct (get_summary_returns get_sheets_client now "today") as [[res tot] ->].
    simpl. eauto 8. }
  destruct (bool_decide (str_lower (strip body) = list_ascii_of_string "week")).
  { destruct (get_summary_returns get_sheets_client now "week") as [[res tot] ->].
    simpl. eauto 8. }
  destruct (bool_decide (str_lower (strip body) = list_ascii_of_string "month")).
  { destruct (get_summary_returns get_sheets_client now "month") as [[res tot] ->].
    simpl. eauto 8. }
  destruct (bool_decide (str_lower (strip body) = list_ascii_of_string "help")); [|discriminate].
  simpl. eauto.
Qed.

(** X14.  [webhook] raises only through [parse_expense]: it raises an
    exception exactly when the message is no command and
    [parse_expense] raises that exception on it. *)
Theorem webhook_raises_iff generate_content get_sheets_client now body e :
  webhook generate_content get_sheets_client now body = Raised e <->
  is_command (str_lower (strip body)) = false /\ parse_expense body = Raised e.
Proof.
  destruct (is_command (str_lower (strip body))) eqn:Ec.
  - destruct (webhook_command generate_content get_sheets_client now body Ec)
      as (r & -> & _). split; [discriminate | intros [? _]; discriminate].
  - rewrite webhook_not_command by assumption.
    destruct (parse_expense body) as [[description amount]|e'] eqn:Ep; simpl.
    + split; [|intros [_ ?]; discriminate].
      destruct (truthy_str description && truthy_float amount); [|discriminate].
      destruct description as [d|]; [|discriminate].
      destruct amount as [a|]; [|discriminate].
      destruct (categorize_expense_returns generate_content d) as (c & -> & _).
      simpl. discriminate.
    + split; [intros H; inversion H; auto | intros [_ H]; inversion H; reflexivity].
Qed.

(** X15.  The reply for an error, which [webhook] makes in its
    [except] branch, is never given: nothing raises inside its [try]. *)
Theorem webhook_never_error_reply generate_content get_sheets_client now body e :
  webhook generate_content get_sheets_client now body <> Returned (ErrorReply e).
Proof.
  destruct (is_command (str_lower (strip body))) eqn:Ec.
  - destruct (webhook_command generate_content get_sheets_client now body Ec)
      as (r & -> & [->|(p & res & tot & ->)]); discriminate.
  - rewrite webhook_not_command by assumption.
    destruct (parse_expense body) as [[description amount]|e']; simpl;
      [|discriminate].
    destruct (truthy_str description && truthy_float amount); [|discriminate].
    destruct description as [d|]; [|discriminate].
    destruct amount as [a|]; [|discriminate].
    destruct (categorize_expense_returns generate_content d) as (c & -> & _).
    simpl. destruct (save_expense _ _ _ _); discriminate.
Qed.

(** X16.  A message that is no command is answered "not understood"
    exactly when [parse_expense] finds no expense in it, or finds one
    whose amount is zero. *)
Theorem webhook_not_understood_iff generate_content get_sheets_client now body :
  is_command (str_lower (strip body)) = false ->
  (webhook generate_content get_sheets_client now body = Returned NotUnderstood
   <-> parse_expense body = Returned (None, None) \/
       exists d, parse_expense body = Returned (Some d, Some (S754_zero false))).
Proof.
  intros Ec. rewrite webhook_not_command by assumption.
  destruct (parse_expense body) as [[description amount]|e'] eqn:Ep; simpl.
  2:{ split; [discriminate | intros [H|[d H]]; discriminate]. }
  destruct (parse_expense_cases _ _ _ Ep)
    as [[-> ->]|(d & a & -> & -> & Hd & _ & Ha)].
  - simpl. split; auto.
  - destruct d as [|c0 d]; [congruence|]. simpl.
    destruct a as [[|]| | |[|] m ex]; simpl in Ha; try discriminate; simpl.
    + split; [eauto | reflexivity].
    + destruct (categorize_expense_returns generate_content (c0 :: d))
        as (c & -> & _). simpl.
      split; [destruct (save_expense _ _ _ _); discriminate|].
      intros [H|[d' H]]; discriminate.
    + destruct (categorize_expense_returns generate_content (c0 :: d))
        as (c & -> & _). simpl.
      split; [destruct (save_expense _ _ _ _); discriminate|].
      intros [H|[d' H]]; discriminate.
Qed.

Lemma webhook_not_understood_iff_witness :
  webhook (fun _ => Raised OtherError) None (Date 2024 6 1) "hello"
  = Returned NotUnderstood.
Proof.
  apply webhook_not_understood_iff.
  - vm_compute. reflexivity.
  - left. vm_compute. reflexivity.
Defined.

(** X17.  Whitespace before and after the message does not change the
    reply of [webhook]. *)
Theorem webhook_whitespace generate_content get_sheets_client now l body r :
  all cls_space l -> all cls_space r ->
  webhook generate_content get_sheets_client now (l ++ body ++ r)
  = webhook generate_content get_sheets_client now body.
Proof.
  intros Hl Hr. unfold webhook, strip.
  now rewrite (strip_with_around is_space l body r Hl Hr).
Qed.

Lemma webhook_whitespace_witness :
  webhook (fun _ => Raised OtherError) None (Date 2024 6 1)
          (" " ++ "Week" ++ [newline])
  = webhook (fun _ => Raised OtherError) None (Date 2024 6 1) "Week".
Proof.
  apply webhook_whitespace; repeat constructor.
Defined.

(** X21.  [save_expense] never raises: it returns [True] exactly when
    [get_or_create_sheet] returns a worksheet and its [append_row]
    returns; without a client, or when opening, creating or appending
    raises, it returns [False]. *)
Theorem save_expense_true_iff get_sheets_client description amount category :
  save_expense get_sheets_client description amount category = true <->
  exists worksheet,
    get_or_create_sheet get_sheets_client = Returned (Some worksheet) /\
    append_row worksheet description amount category = Returned tt.
Proof.
  unfold save_expense.
  destruct (get_or_create_sheet get_sheets_client) as [[w|]|e]; simpl.
  - destruct (append_row w description amount category) as [[]|e] eqn:Ea; simpl.
    + split; [eauto|reflexivity].
    + split; [discriminate|]. intros (w' & H & Ha). inversion H; subst.
      congruence.
  - split; [discriminate | intros (w' & H & _); discriminate].
  - split; [discriminate | intros (w' & H & _); discriminate].
Qed.
